(** * ZumPay public API: the request/reply gateway of [POST /v1/new]

    A shallow embedding of the service's entry point (the Express
    application with its RabbitMQ channel) and of the helper [toNumber],
    followed by the properties of the dispatcher that the design document
    states about it.

    The JavaScript values that flow through the handler are an inductive
    type; the numbers among them are IEEE doubles, of which the handler only
    ever distinguishes integral values, values with a fractional part, NaN
    and the infinities.  The event loop is a transition function on an
    explicit state: the channel, the consumers attached to the reply queue,
    the messages published, and one scope per invocation of the handler,
    holding the response object [res] and the variable [cancelTimer] that
    the consumer callback and the timer callback of that invocation share.
    What the broker delivers, to which consumer, and which timers run out
    is the choice of the environment: these are the events. *)

From Stdlib Require Import Ascii.
From stdpp Require Import base list strings numbers.

#[local] Set Warnings "-register-all".

Open Scope Z_scope.

(** ** JavaScript values *)

Module JS.

(** A Number: an integral double, a finite double with a fractional part,
    NaN, or an infinity ([NInf true] is [-Infinity]).  The two zeros are not
    told apart: nothing in the handler can distinguish them. *)
Inductive jsnum :=
| NInt (z : Z)
| NFrac (q : QArith_base.Q)
| NNaN
| NInf (negative : bool).

(** What [JSON.parse] and [body-parser] produce, plus [undefined] for a
    property that is absent. *)
Inductive jsval :=
| VUndefined
| VNull
| VBool (b : bool)
| VNum (n : jsnum)
| VStr (s : string)
| VObj (fields : list (string * jsval))
| VArr (items : list jsval).

Definition num_truthy (n : jsnum) : bool :=
  match n with
  | NInt z => negb (z =? 0)
  | NNaN => false
  | NFrac _ | NInf _ => true
  end.

(** ToBoolean. *)
Definition truthy (v : jsval) : bool :=
  match v with
  | VUndefined | VNull => false
  | VBool b => b
  | VNum n => num_truthy n
  | VStr s => negb (String.eqb s "")
  | VObj _ | VArr _ => true
  end.

(** [n < z] and [n > z] for an integer [z]; every comparison with NaN is
    false. *)
Definition num_ltb (n : jsnum) (z : Z) : bool :=
  match n with
  | NInt x => x <? z
  | NFrac q => negb (QArith_base.Qle_bool (QArith_base.inject_Z z) q)
  | NNaN => false
  | NInf negative => negative
  end.

Definition num_gtb (n : jsnum) (z : Z) : bool :=
  match n with
  | NInt x => z <? x
  | NFrac q => negb (QArith_base.Qle_bool q (QArith_base.inject_Z z))
  | NNaN => false
  | NInf negative => negb negative
  end.

(** Property read [v.k].  [None] is the TypeError of reading a property of
    [null] or [undefined]; a primitive or an array has none of the property
    names the service reads, so the read gives [undefined]. *)
Fixpoint lookup_field (k : string) (fields : list (string * jsval)) : jsval :=
  match fields with
  | [] => VUndefined
  | (k', v) :: rest => if String.eqb k k' then v else lookup_field k rest
  end.

Definition get_prop (v : jsval) (k : string) : option jsval :=
  match v with
  | VUndefined | VNull => None
  | VObj fields => Some (lookup_field k fields)
  | VBool _ | VNum _ | VStr _ | VArr _ => Some VUndefined
  end.

(** *** Conversion to a string

    ToString of an object goes through its [toString] and [valueOf].  A
    value that [JSON.parse] has made holds no function, so an object with a
    property [toString] of its own has no method left that gives a
    primitive, and the conversion raises a TypeError; any other object
    gives ["[object Object]"].  An array converts its elements, [null]
    apart, and joins them. *)
Definition has_own (k : string) (fields : list (string * jsval)) : bool :=
  existsb (fun kv => String.eqb k kv.1) fields.

Fixpoint cannot_convert (v : jsval) : bool :=
  match v with
  | VObj fields => has_own "toString" fields
  | VArr items =>
      (fix any (l : list jsval) : bool :=
         match l with
         | [] => false
         | x :: rest => cannot_convert x || any rest
         end) items
  | VUndefined | VNull | VBool _ | VNum _ | VStr _ => false
  end.

(** *** [JSON.stringify]

    The value that the text [JSON.stringify(v)] stands for: NaN and the
    infinities are written [null], a property that is [undefined] is left
    out, an element that is [undefined] is written [null]. *)
Fixpoint json_of (v : jsval) : jsval :=
  match v with
  | VUndefined => VNull
  | VNum NNaN | VNum (NInf _) => VNull
  | VObj fields =>
      VObj ((fix props (l : list (string * jsval)) : list (string * jsval) :=
               match l with
               | [] => []
               | (k, VUndefined) :: rest => props rest
               | (k, x) :: rest => (k, json_of x) :: props rest
               end) fields)
  | VArr items =>
      VArr ((fix elements (l : list jsval) : list jsval :=
               match l with
               | [] => []
               | x :: rest => json_of x :: elements rest
               end) items)
  | VNull | VBool _ | VNum (NInt _) | VNum (NFrac _) | VStr _ => v
  end.

(** *** Characters

    A string is the sequence of the bytes of its text in WTF-8: UTF-8, with
    a surrogate that has no partner as the three bytes of its code point.
    Of the white space of the language [parseInt] is given the ASCII part;
    a string that starts with white space, whichever it is, is not what
    [toString] prints. *)

Definition code (c : ascii) : Z := Z.of_N (N_of_ascii c).

Definition is_whitespace (c : ascii) : bool :=
  let n := code c in
  ((9 <=? n) && (n <=? 13)) || (n =? 32).

(** The value of [c] as a digit in base 10 or 16. *)
Definition digit_value (radix : Z) (c : ascii) : option Z :=
  let n := code c in
  let d :=
    if (48 <=? n) && (n <=? 57) then Some (n - 48)
    else if (97 <=? n) && (n <=? 122) then Some (n - 87)
    else if (65 <=? n) && (n <=? 90) then Some (n - 55)
    else None in
  match d with
  | Some v => if v <? radix then Some v else None
  | None => None
  end.

Definition digit_char (d : Z) : ascii := ascii_of_N (Z.to_N (48 + d)).

Definition lower_char (c : ascii) : ascii :=
  let n := code c in
  if (65 <=? n) && (n <=? 90) then ascii_of_N (Z.to_N (n + 32)) else c.

Fixpoint toLowerCase (s : string) : string :=
  match s with
  | EmptyString => EmptyString
  | String c rest => String (lower_char c) (toLowerCase rest)
  end.

(** [s.substring(0, n)]. *)
Fixpoint prefix (n : nat) (s : string) : string :=
  match n, s with
  | S m, String c rest => String c (prefix m rest)
  | _, _ => EmptyString
  end.

(** A surrogate without a partner: the byte 237 followed by a byte from
    160 to 191. *)
Fixpoint has_unpaired_surrogate (s : string) : bool :=
  match s with
  | String c1 ((String c2 _) as rest) =>
      ((code c1 =? 237) && (160 <=? code c2) && (code c2 <=? 191))
      || has_unpaired_surrogate rest
  | _ => false
  end.

(** [encodeURIComponent(v)] raises a URIError: the string that [v] converts
    to holds a surrogate without a partner.  (The elements of an array are
    joined with commas, which pair no surrogates.) *)
Fixpoint uri_malformed (v : jsval) : bool :=
  match v with
  | VStr s => has_unpaired_surrogate s
  | VArr items =>
      (fix any (l : list jsval) : bool :=
         match l with
         | [] => false
         | x :: rest => uri_malformed x || any rest
         end) items
  | VUndefined | VNull | VBool _ | VNum _ | VObj _ => false
  end.

(** *** Doubles *)

(** The double nearest to the natural number [m], ties to even; [None] past
    the largest finite double. *)
Definition round_double (m : Z) : option Z :=
  let bits := Z.log2 m + 1 in
  if bits <=? 53 then Some m
  else
    let sh := bits - 53 in
    let q := Z.shiftr m sh in
    let r := m mod 2 ^ sh in
    let half := 2 ^ (sh - 1) in
    let q' := if (half <? r) || ((r =? half) && Z.odd q) then q + 1 else q in
    let v := q' * 2 ^ sh in
    if 2 ^ 1024 <=? v then None else Some v.

(** What [parseInt] can return: NaN, an integral double, an infinity. *)
Inductive integral :=
| INaN
| IInt (z : Z)
| IInf (negative : bool).

Definition to_num (i : integral) : jsnum :=
  match i with
  | INaN => NNaN
  | IInt z => NInt z
  | IInf negative => NInf negative
  end.

Definition to_double (negative : bool) (m : Z) : integral :=
  match round_double m with
  | Some v => IInt (if negative then - v else v)
  | None => IInf negative
  end.

(** *** Decimal numerals *)

Fixpoint decimal_go (fuel : nat) (n : Z) (acc : string) : string :=
  match fuel with
  | O => acc
  | S fuel' =>
      let acc' := String (digit_char (n mod 10)) acc in
      if n / 10 =? 0 then acc' else decimal_go fuel' (n / 10) acc'
  end.

(** The decimal numeral of a natural number, without leading zeros. *)
Definition decimal (n : Z) : string :=
  decimal_go (S (Z.to_nat (Z.log2 n))) n EmptyString.

Definition ndigits (n : Z) : Z := Z.of_nat (String.length (decimal n)).

(** *** [Number.prototype.toString] on integral values

    The digits printed are those of the integer with the fewest significant
    digits among the integers that the double [x] is the nearest double of;
    up to 2^53 that integer is [x] itself. *)

Definition is_double_of (x c : Z) : bool :=
  (0 <? c) && match round_double c with Some v => v =? x | None => false end.

Fixpoint shortest_go (fuel : nat) (k : Z) (n x : Z) : Z :=
  match fuel with
  | O => x
  | S fuel' =>
      if n <=? k then x
      else
        let u := 10 ^ (n - k) in
        let c1 := x / u * u in
        let c2 := c1 + u in
        match is_double_of x c1, is_double_of x c2 with
        | true, true => if x - c1 <=? c2 - x then c1 else c2
        | true, false => c1
        | false, true => c2
        | false, false => shortest_go fuel' (k + 1) n x
        end
  end.

Definition shortest (x : Z) : Z := shortest_go 17 1 (ndigits x) x.

Fixpoint strip_zeros (fuel : nat) (n : Z) : Z :=
  match fuel with
  | O => n
  | S fuel' => if (n mod 10 =? 0) && negb (n =? 0) then strip_zeros fuel' (n / 10) else n
  end.

(** Exponent notation, used from 10^21 on: [d.ddde+N]. *)
Definition exponent_form (y : Z) : string :=
  let e := decimal (ndigits y - 1) in
  match decimal (strip_zeros (Z.to_nat (ndigits y)) y) with
  | EmptyString => EmptyString
  | String d EmptyString => String d ("e+" +:+ e)
  | String d more => String d ("." +:+ more +:+ "e+" +:+ e)
  end.

Definition nat_to_string (x : Z) : string :=
  if x <? 10 ^ 21 then decimal (shortest x) else exponent_form (shortest x).

Definition toString (i : integral) : string :=
  match i with
  | IInt z => if z <? 0 then "-" +:+ nat_to_string (- z) else nat_to_string z
  | INaN => "NaN"
  | IInf negative => if negative then "-Infinity" else "Infinity"
  end.

(** *** [parseInt] of a string, radix not given *)

Fixpoint skip_whitespace (s : string) : string :=
  match s with
  | String c rest => if is_whitespace c then skip_whitespace rest else s
  | EmptyString => s
  end.

(** The value of the longest prefix of [s] made of digits of the radix;
    [acc] is [None] until a digit has been read. *)
Fixpoint read_digits (radix : Z) (s : string) (acc : option Z) : option Z :=
  match s with
  | String c rest =>
      match digit_value radix c with
      | Some d => read_digits radix rest (Some (default 0 acc * radix + d))
      | None => acc
      end
  | EmptyString => acc
  end.

Definition strip_sign (s : string) : bool * string :=
  match s with
  | String "-" rest => (true, rest)
  | String "+" rest => (false, rest)
  | _ => (false, s)
  end.

Definition strip_hex_prefix (s : string) : Z * string :=
  match s with
  | String "0" (String "x" rest) | String "0" (String "X" rest) => (16, rest)
  | _ => (10, s)
  end.

Definition parseInt (s : string) : integral :=
  let '(negative, s1) := strip_sign (skip_whitespace s) in
  let '(radix, s2) := strip_hex_prefix s1 in
  match read_digits radix s2 None with
  | None => INaN
  | Some m => to_double negative m
  end.

End JS.

Import JS.

(** ** The data of the service *)

(** What [toNumber] returns: a Number, or [false]. *)
Inductive parsed :=
| PNum (n : jsnum)
| PFalse.

(** The keys of [config.json] that the handler reads. *)
Record config := {
  coinDecimals : Z;
  maximumConfirmations : Z;
  defaultConfirmations : Z;
  coinUri : string
}.

(** [req.body]: the six properties the handler reads, [undefined] when the
    caller left one out. *)
Record body := {
  body_amount : jsval;
  body_callback : jsval;
  body_address : jsval;
  body_name : jsval;
  body_userDefined : jsval;
  body_confirmations : jsval
}.

(** [walletRequest], the work item. *)
Record wallet_request := {
  wr_amount : parsed;
  wr_address : jsval;
  wr_confirmations : parsed;
  wr_callback : jsval;
  wr_callerData : jsval
}.

(** [atomicAmount / Math.pow(10, Config.coinDecimals)], kept as the two
    operands of the division. *)
Record quotient := {
  dividend : parsed;
  decimals : Z
}.

(** A string built by [+], kept as its operands: a literal, a value or a
    Number converted to a string, a value through [encodeURIComponent]. *)
Inductive piece :=
| Lit (s : string)
| Shown (v : jsval)
| ShownNumber (n : parsed)
| UriComponent (v : jsval).

(** The object handed to [res.json]. *)
Record reply_json := {
  sendToAddress : jsval;
  atomicAmount : parsed;
  amount : quotient;
  userDefined : jsval;
  startHeight : jsval;
  endHeight : jsval;
  confirmations : parsed;
  callbackPublicKey : jsval;
  qrCode : list piece
}.

(** A terminal call on the response object: [res.status(code).send()] or
    [res.json(payload)]. *)
Inductive response :=
| Status (code : Z)
| Json (payload : reply_json).

Inductive timer_status := Armed | Cleared | Fired.

(** The variable [cancelTimer]: [undefined] until [setTimeout] has returned
    its timer. *)
Inductive timer :=
| NoTimer
| Timer (delay : Z) (st : timer_status).

(** The variables of one invocation of the handler that its callbacks
    change: [res], as the terminal calls made on it, oldest first (Express
    sends the first to the caller and refuses a later [res.json] with an
    exception), and [cancelTimer]. *)
Record scope := {
  res : list response;
  cancelTimer : timer
}.

(** The callback handed to [channel.consume], with the constants of the
    invocation it closes over; [owner] is the index of its scope.
    [atomicAmount], [callerData] and [requestConfirmations] are the fields
    of [walletRequest]. *)
Record consumer := {
  requestId : string;
  owner : nat;
  walletRequest : wallet_request;
  name : jsval;
  amount_of : quotient
}.

(** A message of the reply queue: [properties.correlationId] and the
    outcome of [JSON.parse(message.content.toString())], [None] when the
    content is not JSON. *)
Record message := {
  correlationId : option string;
  content : option jsval
}.

(** A call of [channel.sendToQueue]: [work] is the [walletRequest] of the
    invocation, [pub_content] what [JSON.stringify] has made of it for the
    content of the message. *)
Record publication := {
  queue : string;
  work : wallet_request;
  pub_content : jsval;
  pub_correlationId : string;
  replyTo : string;
  expiration : Z
}.

Inductive exn :=
| TypeError
| SyntaxError
| URIError
| HeadersSent.

(** What a call comes to: it returns a value, or it raises. *)
Inductive outcome (A : Type) :=
| Returned (a : A)
| Thrown (e : exn).

Arguments Returned {A} a.
Arguments Thrown {A} e.

Inductive log_entry :=
| HTTPError (invocation : nat) (reason : string)
| HTTPErrorOf (invocation : nat) (e : exn)
| HTTPRequest (invocation : nat) (params : wallet_request).

(** The process.  [replyQueue] is [None] until the start-up function has
    created the channel and the reply queue; [uncaught] lists the
    exceptions that left the handler or one of its callbacks. *)
Record state := {
  replyQueue : option string;
  consumers : list consumer;
  published : list publication;
  scopes : list scope;
  acked : list message;
  nacked : list message;
  uncaught : list exn;
  logged : list log_entry
}.

Inductive event :=
| Startup (queueName : string)
| Request (b : body) (uuid : string)
| Delivery (c : nat) (m : option message)
| Elapsed (invocation : nat).

Definition initial : state :=
  {| replyQueue := None; consumers := []; published := []; scopes := [];
     acked := []; nacked := []; uncaught := []; logged := [] |}.

Definition walletQueue : string := "request.wallet".

(** The message TTL given to [sendToQueue] and the delay given to
    [setTimeout], in milliseconds. *)
Definition messageExpiration : Z := 2000.
Definition requestTimeout : Z := 5000.

(** ** [toNumber]

    [term % 1 === 0] holds of the integral Numbers only ([NaN % 1] and
    [Infinity % 1] are NaN).  [parseInt(term)] converts [term] to a string
    first, which raises for a value that cannot be converted.
    [parseInt(term).toString()] is a string, and [===] between a string and
    a value of another type is false, so only a string passes the second
    test. *)
Definition toNumber (term : jsval) : outcome parsed :=
  match term with
  | VNum (NInt z) => Returned (PNum (NInt z))
  | VStr s =>
      Returned (if String.eqb (toString (parseInt s)) s
                then PNum (to_num (parseInt s))
                else PFalse)
  | _ => if cannot_convert term then Thrown TypeError else Returned PFalse
  end.

(** [!x], [x === 0], [x < z], [x > z] and [x !== false] on a result of
    [toNumber]. *)
Definition parsed_truthy (x : parsed) : bool :=
  match x with PNum n => num_truthy n | PFalse => false end.

Definition parsed_is_zero (x : parsed) : bool :=
  match x with PNum (NInt z) => z =? 0 | _ => false end.

Definition parsed_ltb (x : parsed) (z : Z) : bool :=
  match x with PNum n => num_ltb n z | PFalse => 0 <? z end.

Definition parsed_gtb (x : parsed) (z : Z) : bool :=
  match x with PNum n => num_gtb n z | PFalse => z <? 0 end.

Definition is_false (x : parsed) : bool :=
  match x with PFalse => true | PNum _ => false end.

(** [v || false] and [v || {}]. *)
Definition or_false (v : jsval) : jsval := if truthy v then v else VBool false.
Definition or_empty (v : jsval) : jsval := if truthy v then v else VObj [].

(** [UUID().toString().replace(/-/g, '')]. *)
Fixpoint remove_hyphens (s : string) : string :=
  match s with
  | EmptyString => EmptyString
  | String c rest =>
      if Ascii.eqb c "-" then remove_hyphens rest else String c (remove_hyphens rest)
  end.

(** [JSON.stringify(walletRequest)], as the value the text stands for. *)
Definition parsed_value (x : parsed) : jsval :=
  match x with PNum n => VNum n | PFalse => VBool false end.

Definition wallet_object (w : wallet_request) : jsval :=
  VObj [("amount", parsed_value (wr_amount w));
        ("address", wr_address w);
        ("confirmations", parsed_value (wr_confirmations w));
        ("callback", wr_callback w);
        ("callerData", wr_callerData w)].

Definition wallet_json (w : wallet_request) : jsval :=
  json_of (wallet_object w).

(** ** State updates *)

Definition set_replyQueue (q : string) (s : state) : state :=
  {| replyQueue := Some q; consumers := consumers s; published := published s;
     scopes := scopes s; acked := acked s; nacked := nacked s;
     uncaught := uncaught s; logged := logged s |}.

Definition add_consumer (k : consumer) (s : state) : state :=
  {| replyQueue := replyQueue s; consumers := consumers s ++ [k];
     published := published s; scopes := scopes s; acked := acked s;
     nacked := nacked s; uncaught := uncaught s; logged := logged s |}.

Definition add_publication (p : publication) (s : state) : state :=
  {| replyQueue := replyQueue s; consumers := consumers s;
     published := published s ++ [p]; scopes := scopes s; acked := acked s;
     nacked := nacked s; uncaught := uncaught s; logged := logged s |}.

Definition with_scopes (f : list scope -> list scope) (s : state) : state :=
  {| replyQueue := replyQueue s; consumers := consumers s;
     published := published s; scopes := f (scopes s); acked := acked s;
     nacked := nacked s; uncaught := uncaught s; logged := logged s |}.

Definition ack (m : message) (s : state) : state :=
  {| replyQueue := replyQueue s; consumers := consumers s;
     published := published s; scopes := scopes s; acked := acked s ++ [m];
     nacked := nacked s; uncaught := uncaught s; logged := logged s |}.

Definition nack (m : message) (s : state) : state :=
  {| replyQueue := replyQueue s; consumers := consumers s;
     published := published s; scopes := scopes s; acked := acked s;
     nacked := nacked s ++ [m]; uncaught := uncaught s; logged := logged s |}.

Definition raise (e : exn) (s : state) : state :=
  {| replyQueue := replyQueue s; consumers := consumers s;
     published := published s; scopes := scopes s; acked := acked s;
     nacked := nacked s; uncaught := uncaught s ++ [e]; logged := logged s |}.

Definition log (l : log_entry) (s : state) : state :=
  {| replyQueue := replyQueue s; consumers := consumers s;
     published := published s; scopes := scopes s; acked := acked s;
     nacked := nacked s; uncaught := uncaught s; logged := logged s ++ [l] |}.

(** A new invocation of the handler: its scope is the next one. *)
Definition enter (sc : scope) (s : state) : state :=
  with_scopes (fun l => l ++ [sc]) s.

Definition call_on_res (r : response) (sc : scope) : scope :=
  {| res := res sc ++ [r]; cancelTimer := cancelTimer sc |}.

Definition set_timer (t : timer) (sc : scope) : scope :=
  {| res := res sc; cancelTimer := t |}.

(** [clearTimeout(cancelTimer)]: nothing happens unless the timer is still
    waiting. *)
Definition clearTimeout (t : timer) : timer :=
  match t with
  | Timer d Armed => Timer d Cleared
  | _ => t
  end.

Definition answered (h : nat) (s : state) : bool :=
  match scopes s !! h with
  | Some sc => negb (bool_decide (res sc = []))
  | None => false
  end.

(** [res.status(code).send()] in invocation [h]. *)
Definition send_status (h : nat) (code : Z) (s : state) : state :=
  with_scopes (alter (call_on_res (Status code)) h) s.

(** [res.json(payload)] in invocation [h]; on a response that has been
    answered the call raises out of its caller. *)
Definition send_json (h : nat) (payload : reply_json) (s : state) : state :=
  let s' := with_scopes (alter (call_on_res (Json payload)) h) s in
  if answered h s then raise HeadersSent s' else s'.

(** The outcome of the checks of the handler, before it touches the
    channel. *)
Inductive verdict :=
| Reject (reason : string)
| Raise (e : exn)
| Accept (atomicAmount requestConfirmations : parsed).

(** ** The handler of [POST /v1/new] and its callbacks *)

Section Gateway.

Variable Config : config.

(** [cryptoUtils.decodeAddress(address)] returns without raising. *)
Variable decodeAddress : jsval -> bool.

(** Lines 147 to 154: [None] lets the request through. *)
Definition check_callback (callback : jsval) : option verdict :=
  if truthy callback then
    match callback with
    | VStr s =>
        if negb (String.eqb (toLowerCase (prefix 4 s)) "http")
        then Some (Reject "Invalid callback URL supplied")
        else None
    | _ => Some (Raise TypeError)
    end
  else None.

(** Lines 130 to 178, with [atomicAmount] and [confirmations], the values
    that the two calls of [toNumber] have returned. *)
Definition checks (b : body) (atomicAmount confirmations : parsed) : verdict :=
  let callback := or_false (body_callback b) in
  let address := or_false (body_address b) in
  if negb (parsed_truthy atomicAmount) then Reject "Invalid amount supplied"
  else if negb (decodeAddress address) then Reject "Invalid address supplied"
  else
    match check_callback callback with
    | Some v => v
    | None =>
        if negb (parsed_truthy atomicAmount) || parsed_is_zero atomicAmount
           || parsed_ltb atomicAmount 0
        then Reject "Invalid amount requested"
        else if negb (is_false confirmations) then
          if parsed_ltb confirmations 0
             || parsed_gtb confirmations (maximumConfirmations Config)
          then Reject "Invalid confirmations requested"
          else Accept atomicAmount confirmations
        else Accept atomicAmount (PNum (NInt (defaultConfirmations Config)))
    end.

(** Lines 123 to 178: the two calls of [toNumber] come first, outside any
    [try], and what they raise leaves the handler. *)
Definition validate (b : body) : verdict :=
  match toNumber (body_amount b) with
  | Thrown e => Raise e
  | Returned atomicAmount =>
      match toNumber (body_confirmations b) with
      | Thrown e => Raise e
      | Returned confirmations => checks b atomicAmount confirmations
      end
  end.

Definition build_walletRequest
    (b : body) (atomicAmount requestConfirmations : parsed) : wallet_request :=
  {| wr_amount := atomicAmount;
     wr_address := or_false (body_address b);
     wr_confirmations := requestConfirmations;
     wr_callback := or_false (body_callback b);
     wr_callerData := or_empty (body_userDefined b) |}.

(** Lines 122 to 249.  Between [channel.consume] and [setTimeout] nothing
    else runs, so the invocation ends with its consumer attached, its work
    item published and its timer waiting. *)
Definition post_v1_new (b : body) (uuid : string) (s : state) : state :=
  let h := length (scopes s) in
  let fresh := {| res := []; cancelTimer := NoTimer |} in
  match validate b with
  | Reject reason =>
      send_status h 400 (log (HTTPError h reason) (enter fresh s))
  | Raise e => raise e (enter fresh s)
  | Accept atomicAmount requestConfirmations =>
      match replyQueue s with
      | None =>
          send_status h 500 (log (HTTPErrorOf h TypeError) (enter fresh s))
      | Some q =>
          let requestId := remove_hyphens uuid in
          let walletRequest :=
            build_walletRequest b atomicAmount requestConfirmations in
          let k := {| requestId := requestId; owner := h;
                      walletRequest := walletRequest;
                      name := or_false (body_name b);
                      amount_of := {| dividend := atomicAmount;
                                      decimals := coinDecimals Config |} |} in
          let p := {| queue := walletQueue; work := walletRequest;
                      pub_content := wallet_json walletRequest;
                      pub_correlationId := requestId; replyTo := q;
                      expiration := messageExpiration |} in
          with_scopes (alter (set_timer (Timer requestTimeout Armed)) h)
            (add_publication p (add_consumer k (enter fresh s)))
      end
  end.

(** The object of lines 211 to 222.  Making the string [qrCode] converts
    [sendToAddress] to a string and, when there is a name, passes the name
    through [encodeURIComponent]; either can raise, before [res.json] is
    called. *)
Definition reply_payload (k : consumer) (workerResponse sendTo : jsval)
  : outcome reply_json :=
  let field := fun key => default VUndefined (get_prop workerResponse key) in
  if cannot_convert sendTo then Thrown TypeError
  else if truthy (name k) && cannot_convert (name k) then Thrown TypeError
  else if truthy (name k) && uri_malformed (name k) then Thrown URIError
  else Returned
  {| sendToAddress := sendTo;
     atomicAmount := wr_amount (walletRequest k);
     amount := amount_of k;
     userDefined := wr_callerData (walletRequest k);
     startHeight := field "scanHeight";
     endHeight := field "maxHeight";
     confirmations := wr_confirmations (walletRequest k);
     callbackPublicKey := field "publicKey";
     qrCode :=
       [Lit "https://chart.googleapis.com/chart?cht=qr&chs=256x256&chl=";
        Lit (coinUri Config); Lit "://"; Shown sendTo; Lit "?amount=";
        ShownNumber (wr_amount (walletRequest k))]
       ++ (if truthy (name k) then [Lit "&name="; UriComponent (name k)] else []) |}.

(** [message.properties.correlationId === requestId]. *)
Definition matches (k : consumer) (m : message) : bool :=
  match correlationId m with
  | Some i => String.eqb i (requestId k)
  | None => false
  end.

(** Lines 195 to 228: the callback of consumer [k] on a delivery; [None] is
    the [null] that the channel passes when the consumer is cancelled. *)
Definition consume_callback (k : consumer) (delivery : option message)
    (s : state) : state :=
  match delivery with
  | None => s
  | Some m =>
      if matches k m then
        match content m with
        | None => raise SyntaxError s
        | Some workerResponse =>
            match get_prop workerResponse "address" with
            | None => raise TypeError s
            | Some sendTo =>
                let s1 := ack m s in
                let s2 := with_scopes
                            (alter (fun sc => set_timer (clearTimeout (cancelTimer sc)) sc)
                                   (owner k)) s1 in
                let s3 := log (HTTPRequest (owner k) (walletRequest k)) s2 in
                match reply_payload k workerResponse sendTo with
                | Thrown e => raise e s3
                | Returned payload => send_json (owner k) payload s3
                end
            end
        end
      else nack m s
  end.

(** Lines 241 to 244: the callback of the timer of invocation [h], run when
    its delay has elapsed and it has not been cleared. *)
Definition timer_callback (h : nat) (s : state) : state :=
  match scopes s !! h with
  | Some {| res := _; cancelTimer := Timer d Armed |} =>
      send_status h 500
        (log (HTTPError h "RPC request timed out")
           (with_scopes (alter (set_timer (Timer d Fired)) h) s))
  | _ => s
  end.

(** Lines 57 to 61, once. *)
Definition startup (q : string) (s : state) : state :=
  match replyQueue s with
  | None => set_replyQueue q s
  | Some _ => s
  end.

Definition step (s : state) (e : event) : state :=
  match e with
  | Startup q => startup q s
  | Request b uuid => post_v1_new b uuid s
  | Delivery c delivery =>
      match consumers s !! c with
      | Some k => consume_callback k delivery s
      | None => s
      end
  | Elapsed h => timer_callback h s
  end.

Definition run (s : state) (events : list event) : state :=
  fold_left step events s.

End Gateway.

(** ** A deployment to run the handler on *)

Definition sample_config : config :=
  {| coinDecimals := 2; maximumConfirmations := 60;
     defaultConfirmations := 20; coinUri := "zumcoin" |}.

(** A decoder that knows one address. *)
Definition sample_decoder (address : jsval) : bool :=
  match address with
  | VStr s => String.eqb s "valid123"
  | _ => false
  end.

Definition sample_body : body :=
  {| body_amount := VNum (NInt 1000000); body_callback := VUndefined;
     body_address := VStr "valid123"; body_name := VUndefined;
     body_userDefined := VUndefined; body_confirmations := VUndefined |}.

Definition set_amount (v : jsval) (b : body) : body :=
  {| body_amount := v; body_callback := body_callback b;
     body_address := body_address b; body_name := body_name b;
     body_userDefined := body_userDefined b;
     body_confirmations := body_confirmations b |}.

Definition set_callback (v : jsval) (b : body) : body :=
  {| body_amount := body_amount b; body_callback := v;
     body_address := body_address b; body_name := body_name b;
     body_userDefined := body_userDefined b;
     body_confirmations := body_confirmations b |}.

Definition set_name (v : jsval) (b : body) : body :=
  {| body_amount := body_amount b; body_callback := body_callback b;
     body_address := body_address b; body_name := v;
     body_userDefined := body_userDefined b;
     body_confirmations := body_confirmations b |}.

Definition set_confirmations (v : jsval) (b : body) : body :=
  {| body_amount := body_amount b; body_callback := body_callback b;
     body_address := body_address b; body_name := body_name b;
     body_userDefined := body_userDefined b; body_confirmations := v |}.

Definition sample_uuid : string := "6f1c2a9e-0b7d-4c38-9a51-e2d4f8a3b6c0".
Definition other_uuid : string := "0d9e8f7a-6b5c-4d3e-8f2a-1b0c9d8e7f6a".

Definition sample_reply : jsval :=
  VObj [("address", VStr "valid123"); ("scanHeight", VNum (NInt 100));
        ("maxHeight", VNum (NInt 200)); ("publicKey", VStr "pub")].

(** A reply whose [address] is an object with a property [toString] that is
    no function, as [JSON.parse] makes of [{"toString": null}]. *)
Definition unprintable : jsval := VObj [("toString", VNull)].

Definition unprintable_reply : jsval :=
  VObj [("address", unprintable); ("scanHeight", VNum (NInt 100));
        ("maxHeight", VNum (NInt 200)); ("publicKey", VStr "pub")].

Definition reply_for (uuid : string) (v : option jsval) : message :=
  {| correlationId := Some (remove_hyphens uuid); content := v |}.

Definition sample_run : list event -> state :=
  run sample_config sample_decoder initial.

Definition sample_queue : string := "amq.gen-1".

(** The process after start-up and one good request. *)
Definition sample_started : state :=
  sample_run [Startup sample_queue; Request sample_body sample_uuid].

Definition sample_consumer : consumer :=
  {| requestId := remove_hyphens sample_uuid; owner := 0%nat;
     walletRequest :=
       build_walletRequest sample_body (PNum (NInt 1000000))
         (PNum (NInt (defaultConfirmations sample_config)));
     name := VBool false;
     amount_of := {| dividend := PNum (NInt 1000000);
                     decimals := coinDecimals sample_config |} |}.

Definition sample_publication : publication :=
  {| queue := walletQueue; work := walletRequest sample_consumer;
     pub_content := wallet_json (walletRequest sample_consumer);
     pub_correlationId := remove_hyphens sample_uuid;
     replyTo := sample_queue; expiration := messageExpiration |}.

Definition sample_waiting : scope :=
  {| res := []; cancelTimer := Timer requestTimeout Armed |}.

(** ** Vocabulary of the properties *)

Definition is_json (r : response) : bool :=
  match r with Json _ => true | Status _ => false end.

(** A failure status, if there is one, is the first call on the response. *)
Definition status_only_first (l : list response) : bool :=
  match l with
  | [] => true
  | _ :: later => forallb is_json later
  end.

(** The life of one scope: its response is empty while its timer waits. *)
Definition scope_ok (sc : scope) : Prop :=
  status_only_first (res sc) = true /\
  forall d, cancelTimer sc = Timer d Armed -> res sc = [].

(** What one event can do to a scope that exists already: nothing, the
    reply branch of its consumer, to its end or up to an exception before
    [res.json], or its timer callback. *)
Inductive scope_step (sc : scope) : scope -> Prop :=
| scope_same : scope_step sc sc
| scope_replied payload :
    scope_step sc
      (call_on_res (Json payload) (set_timer (clearTimeout (cancelTimer sc)) sc))
| scope_cleared :
    scope_step sc (set_timer (clearTimeout (cancelTimer sc)) sc)
| scope_fired d :
    cancelTimer sc = Timer d Armed ->
    scope_step sc (call_on_res (Status 500) (set_timer (Timer d Fired) sc)).

(** The scope an invocation of the handler ends with. *)
Inductive scope_entered : scope -> Prop :=
| entered_rejected code :
    scope_entered {| res := [Status code]; cancelTimer := NoTimer |}
| entered_raised :
    scope_entered {| res := []; cancelTimer := NoTimer |}
| entered_waiting :
    scope_entered {| res := []; cancelTimer := Timer requestTimeout Armed |}.


(** Every work item published names the reply queue of the process, carries
    the message TTL, and belongs to the consumer attached with it, whose
    timer was set with the request timeout. *)
Definition publication_ok (s : state) (i : nat) (p : publication) : Prop :=
  replyQueue s = Some (replyTo p) /\
  queue p = walletQueue /\
  expiration p = messageExpiration /\
  exists k sc st,
    consumers s !! i = Some k /\ requestId k = pub_correlationId p /\
    scopes s !! owner k = Some sc /\ cancelTimer sc = Timer requestTimeout st.

Definition publications_ok (s : state) : Prop :=
  length (published s) = length (consumers s) /\
  forall i p, published s !! i = Some p -> publication_ok s i p.

(** The value is a strictly positive integer: a Number that is one, or a
    string that is the decimal numeral of one. *)
Definition positive_integer (v : jsval) : Prop :=
  match v with
  | VNum (NInt z) => 0 < z
  | VStr s => exists y, 0 < y /\ s = decimal y
  | _ => False
  end.

(** The value is a Number with a fractional part, or a string that
    [parseInt] and [toString] do not give back. *)
Definition not_an_integer (v : jsval) : bool :=
  match v with
  | VNum (NFrac _) => true
  | VStr s => negb (String.eqb (toString (parseInt s)) s)
  | _ => false
  end.

Section Vocabulary.

Variable Config : config.
Variable decodeAddress : jsval -> bool.

(** The event is a request that gets through the checks while the channel
    is there. *)
Definition admitted (s : state) (e : event) : nat :=
  match e with
  | Request b _ =>
      match validate Config decodeAddress b, replyQueue s with
      | Accept _ _, Some _ => 1%nat
      | _, _ => 0%nat
      end
  | _ => 0%nat
  end.

Fixpoint admissions (s : state) (events : list event) : nat :=
  match events with
  | [] => 0%nat
  | e :: rest =>
      (admitted s e + admissions (step Config decodeAddress s e) rest)%nat
  end.

End Vocabulary.

(** ** The rest of the program *)

(** *** The connection string (lines 21 to 37) *)

(** [result.join('')]. *)
Definition join (parts : list string) : string :=
  foldr String.append EmptyString parts.

Definition buildConnectionString (host username password : string) : string :=
  let result := ["amqp://"] in
  let result :=
    if negb (Nat.eqb (String.length username) 0)
       && negb (Nat.eqb (String.length password) 0)
    then (result ++ [username +:+ ":"]) ++ [password +:+ "@"]
    else result in
  join (result ++ [host]).

(** [process.env.NAME || fallback]: the variable is not set, or is set to a
    string, and the empty string is falsy. *)
Definition env_or (variable : option string) (fallback : string) : string :=
  match variable with
  | Some v => if String.eqb v "" then fallback else v
  | None => fallback
  end.

(** The argument of [RabbitMQ.connect] at line 58, from the three variables
    of the environment. *)
Definition connectionString (host username password : option string) : string :=
  buildConnectionString (env_or host "localhost") (env_or username "")
                        (env_or password "").

(** *** The database backend ([lib/databaseBackend.js], lines 10 to 30) *)

(** The options handed to [MySQL.createPool]. *)
Record pool_options := {
  pool_connectionLimit : jsval;
  pool_host : jsval;
  pool_port : jsval;
  pool_user : jsval;
  pool_password : jsval;
  pool_database : jsval;
  pool_socketPath : jsval
}.

(** The object that [new Self(opts)] builds; [db_pool] is the pool, as the
    options it was created with. *)
Record backend := {
  db_host : jsval;
  db_port : jsval;
  db_username : jsval;
  db_password : jsval;
  db_database : jsval;
  db_socketPath : jsval;
  db_connectionLimit : jsval;
  db_pool : pool_options
}.

(** [v || d]. *)
Definition or_else (v d : jsval) : jsval := if truthy v then v else d.

Definition DatabaseBackend (opts : jsval) : backend :=
  let opts := or_empty opts in
  let read := fun key => default VUndefined (get_prop opts key) in
  let host := or_else (read "host") (VStr "127.0.0.1") in
  let port := or_else (read "port") (VNum (NInt 3306)) in
  let username := or_else (read "username") (VStr "") in
  let password := or_else (read "password") (VStr "") in
  let database := or_else (read "database") (VStr "") in
  let socketPath := or_else (read "socketPath") (VBool false) in
  let connectionLimit := or_else (read "connectionLimit") (VNum (NInt 10)) in
  {| db_host := host; db_port := port; db_username := username;
     db_password := password; db_database := database;
     db_socketPath := socketPath; db_connectionLimit := connectionLimit;
     db_pool :=
       {| pool_connectionLimit := connectionLimit; pool_host := host;
          pool_port := port; pool_user := username;
          pool_password := password; pool_database := database;
          pool_socketPath := socketPath |} |}.

(** The properties of a backend that its constructor reads when the
    backend is handed to it as [opts]. *)
Definition backend_object (d : backend) : jsval :=
  VObj [("host", db_host d); ("port", db_port d);
        ("username", db_username d); ("password", db_password d);
        ("database", db_database d); ("socketPath", db_socketPath d);
        ("connectionLimit", db_connectionLimit d)].

(** *** The application (lines 91 to 118 and 251 to 260)

    A request comes to the routes through the middleware: the JSON body
    parser, the handler of its errors, the headers.  (Helmet and the
    compression add headers of their own and answer nothing; they are left
    out.) *)

Inductive http_method := GET | HEAD | POST | PUT | DELETE | PATCH | OPTIONS.

(** What [BodyParser.json()] did: it went on with [req.body] set, or it
    failed; [syntax] tells whether the error is a [SyntaxError], and [left]
    is [req.body] as it left it. *)
Inductive parser_result :=
| ParsedBody (b : body)
| ParseFailed (syntax : bool) (left : body).

(** The path of the request: it matches ['/v1/new'], or it is another
    path, whose percent-escapes [decodeURIComponent] accepts or not.  (The
    two routes on ['*'] decode the path they match; the route on
    ['/v1/new'] and the middleware decode nothing.) *)
Inductive request_path :=
| V1New
| OtherPath (decodes : bool).

Record http_request := {
  req_method : http_method;
  req_path : request_path;
  req_parsed : parser_result
}.

Definition not_found : string := "Requested URL not Found (404)".

Section Application.

Variable Config : config.
Variable decodeAddress : jsval -> bool.

(** [Config.corsHeader]. *)
Variable corsHeader : string.

(** Lines 105 to 112. *)
Definition app_headers : list (string * string) :=
  [("X-Requested-With", "*");
   ("Access-Control-Allow-Origin", corsHeader);
   ("Access-Control-Allow-Headers", "Origin, X-Requested-With, Content-Type, Accept");
   ("Access-Control-Allow-Methods", "POST, GET, OPTIONS");
   ("Cache-Control", "max-age=30, public")].

(** The routes, in the order they are declared: [app.post('/v1/new')],
    [app.options('*')], [app.all('*')].  Express matches the path of a
    route before its method; a path that cannot be decoded matches neither
    of the routes on ['*'], whatever the method, and the request is
    answered by the final handler of Express, with status 400 and without
    a line in the log. *)
Definition route (r : http_request) (b : body) (uuid : string) (s : state) : state :=
  let h := length (scopes s) in
  let fresh := {| res := []; cancelTimer := NoTimer |} in
  match req_method r, req_path r with
  | POST, V1New => post_v1_new Config decodeAddress b uuid s
  | _, OtherPath false => send_status h 400 (enter fresh s)
  | OPTIONS, _ => send_status h 200 (enter fresh s)
  | _, _ => send_status h 404 (log (HTTPError h not_found) (enter fresh s))
  end.

(** One request through the application: the headers that the application
    has set on the response, and the process afterwards.  [uuid] is what
    [UUID()] gives if the handler asks.  (What the final handler of Express
    keeps of these headers when it is the one that answers is not
    modelled.) *)
Definition serve (r : http_request) (uuid : string) (s : state)
  : list (string * string) * state :=
  let h := length (scopes s) in
  let fresh := {| res := []; cancelTimer := NoTimer |} in
  match req_parsed r with
  | ParseFailed true _ => ([], send_status h 400 (enter fresh s))
  | ParseFailed false b | ParsedBody b => (app_headers, route r b uuid s)
  end.

End Application.

(** ** Vocabulary of the further properties *)

Fixpoint all_digits (s : string) : bool :=
  match s with
  | EmptyString => true
  | String c rest =>
      match digit_value 10 c with
      | Some _ => all_digits rest
      | None => false
      end
  end.

Fixpoint has_hyphen (s : string) : bool :=
  match s with
  | EmptyString => false
  | String c rest => Ascii.eqb c "-" || has_hyphen rest
  end.

(** The numeral that [toString] prints for an integer of magnitude below
    2^53. *)
Definition numeral (z : Z) : string :=
  if z <? 0 then "-" +:+ decimal (- z) else decimal z.

(** The invocation whose variables the callback run by an event can
    change. *)
Definition target (s : state) (e : event) : option nat :=
  match e with
  | Delivery c _ => owner <$> consumers s !! c
  | Elapsed h => Some h
  | Startup _ | Request _ _ => None
  end.

(** The request is a [POST] on [/v1/new] whose body the parser has not
    refused as bad JSON. *)
Definition bad_json (r : http_request) : bool :=
  match req_parsed r with
  | ParseFailed true _ => true
  | _ => false
  end.

Definition reaches_handler (r : http_request) : bool :=
  negb (bad_json r)
  && match req_method r, req_path r with POST, V1New => true | _, _ => false end.

(** The path of the request has a percent-escape that cannot be decoded. *)
Definition bad_path (r : http_request) : bool :=
  match req_path r with OtherPath false => true | _ => false end.

(** The status of the answer to a request that does not get to the
    handler. *)
Definition status_outside (r : http_request) : Z :=
  if bad_json r || bad_path r then 400
  else match req_method r with OPTIONS => 200 | _ => 404 end.

(** The property [key] of the options of the database backend, as the
    constructor reads it: [undefined] when the options are no object. *)
Definition given (opts : jsval) (key : string) : jsval :=
  match opts with
  | VObj fields => lookup_field key fields
  | _ => VUndefined
  end.

Definition no_startup (e : event) : bool :=
  match e with Startup _ => false | _ => true end.

Section FurtherVocabulary.

Variable Config : config.
Variable decodeAddress : jsval -> bool.

(** What can be said of every work item that the handler publishes. *)
Definition work_ok (w : wallet_request) : Prop :=
  (exists z, 0 < z /\ wr_amount w = PNum (NInt z)) /\
  decodeAddress (wr_address w) = true /\
  (wr_callback w = VBool false \/
   exists str, wr_callback w = VStr str /\ toLowerCase (prefix 4 str) = "http") /\
  (wr_confirmations w = PNum (NInt (defaultConfirmations Config)) \/
   wr_confirmations w = PNum NNaN \/
   exists z, 0 <= z <= maximumConfirmations Config /\
             wr_confirmations w = PNum (NInt z)).

(** The same of the content of the message, where [JSON.stringify] has
    written NaN as [null]. *)
Definition content_ok (v : jsval) : Prop :=
  (exists z, 0 < z /\ get_prop v "amount" = Some (VNum (NInt z))) /\
  (exists address, decodeAddress address = true /\
                   get_prop v "address" = Some (json_of address)) /\
  (get_prop v "callback" = Some (VBool false) \/
   exists str, get_prop v "callback" = Some (VStr str) /\
               toLowerCase (prefix 4 str) = "http") /\
  (get_prop v "confirmations"
   = Some (VNum (NInt (defaultConfirmations Config))) \/
   get_prop v "confirmations" = Some VNull \/
   exists z, 0 <= z <= maximumConfirmations Config /\
             get_prop v "confirmations" = Some (VNum (NInt z))).

End FurtherVocabulary.

(** ** Properties *)

Section Properties.

Variable Config : config.
Variable decodeAddress : jsval -> bool.

Local Abbreviation step := (step Config decodeAddress).
Local Abbreviation run := (run Config decodeAddress).
Local Abbreviation validate := (validate Config decodeAddress).
Local Abbreviation checks := (checks Config decodeAddress).
Local Abbreviation post_v1_new := (post_v1_new Config decodeAddress).
Local Abbreviation consume_callback := (consume_callback Config).

(** *** [toNumber] on strings *)

Lemma shortest_go_pos fuel k n x : 0 < x -> 0 < shortest_go fuel k n x.
Proof.
  intros Hx. revert k. induction fuel as [|fuel IH]; intros k; cbn; [done|].
  destruct (n <=? k); [done|].
  set (c1 := x / 10 ^ (n - k) * 10 ^ (n - k)).
  destruct (is_double_of x c1) eqn:H1, (is_double_of x (c1 + 10 ^ (n - k))) eqn:H2;
    unfold is_double_of in *;
    repeat match goal with
           | H : _ && _ = true |- _ => apply andb_true_iff in H as [?%Z.ltb_lt _]
           end;
    try done.
  by destruct (_ <=? _).
Qed.

Lemma shortest_pos x : 0 < x -> 0 < shortest x.
Proof. apply shortest_go_pos. Qed.

(** A numeral in exponent notation is read by [parseInt] up to its second
    character. *)
Lemma parseInt_one_digit d c rest x :
  c = "e"%char \/ c = "."%char ->
  parseInt (String d (String c rest)) = IInt x ->
  x < 10.
Proof.
  intros [->| ->] H;
    destruct d as [[] [] [] [] [] [] [] []];
    vm_compute in H; try discriminate H; injection H as <-; done.
Qed.

Lemma parseInt_exponent_form y x :
  parseInt (exponent_form y) = IInt x -> x < 10.
Proof.
  unfold exponent_form.
  destruct (decimal (strip_zeros _ _)) as [|d [|c more]]; cbn [String.app].
  - discriminate.
  - apply parseInt_one_digit. by left.
  - apply parseInt_one_digit. by right.
Qed.

Lemma toNumber_string_positive s x :
  toNumber (VStr s) = Returned (PNum (NInt x)) -> 0 < x ->
  exists y, 0 < y /\ s = decimal y.
Proof.
  unfold toNumber. destruct (String.eqb _ s) eqn:Heq; [|done].
  apply String.eqb_eq in Heq. intros [= Hx] Hpos.
  destruct (parseInt s) as [|z|neg] eqn:Hparse; try discriminate Hx.
  injection Hx as ->. cbn in Heq.
  destruct (Z.ltb_spec x 0) as [|_]; [lia|].
  unfold nat_to_string in Heq.
  destruct (Z.ltb_spec x (10 ^ 21)) as [_|Hbig].
  - exists (shortest x). split; [by apply shortest_pos|done].
  - rewrite <- Heq in Hparse. apply parseInt_exponent_form in Hparse.
    assert (10 < 10 ^ 21) by done. lia.
Qed.

(** *** The content of a work item *)

(** [amount] and [confirmations] are never [undefined], so they are in the
    text that [JSON.stringify] makes. *)
Lemma wallet_json_amount w :
  get_prop (wallet_json w) "amount"
  = Some (json_of (parsed_value (wr_amount w))).
Proof. by destruct w as [[na|] addr c cb cd]. Qed.

Lemma wallet_json_confirmations w :
  get_prop (wallet_json w) "confirmations"
  = Some (json_of (parsed_value (wr_confirmations w))).
Proof. by destruct w as [[na|] [] [nc|] cb cd]. Qed.

Lemma wallet_json_address w :
  wr_address w <> VUndefined ->
  get_prop (wallet_json w) "address" = Some (json_of (wr_address w)).
Proof. by destruct w as [[na|] [] c cb cd]. Qed.

Lemma wallet_json_callback w :
  wr_callback w <> VUndefined ->
  get_prop (wallet_json w) "callback" = Some (json_of (wr_callback w)).
Proof. by destruct w as [[na|] [] [nc|] [] cd]. Qed.

(** *** Runs *)

Lemma run_app s l1 l2 : run s (l1 ++ l2) = run (run s l1) l2.
Proof. apply fold_left_app. Qed.

Lemma run_invariant (P : state -> Prop) :
  (forall s e, P s -> P (step s e)) ->
  forall events s, P s -> P (run s events).
Proof.
  intros Hstep events. induction events as [|e rest IH]; intros s Hs.
  - exact Hs.
  - cbn. apply IH, Hstep, Hs.
Qed.

(** *** How one event changes the scopes *)

Lemma alter_last {A} (f : A -> A) (l : list A) (x : A) :
  alter f (length l) (l ++ [x]) = l ++ [f x].
Proof.
  rewrite alter_app_r_alt by lia. by rewrite Nat.sub_diag.
Qed.

Lemma scopes_send_json h payload s :
  scopes (send_json h payload s) = alter (call_on_res (Json payload)) h (scopes s).
Proof. unfold send_json. by destruct (answered h s). Qed.

Lemma post_v1_new_scopes b uuid s :
  exists sc, scope_entered sc /\
             scopes (post_v1_new b uuid s) = scopes s ++ [sc].
Proof.
  unfold post_v1_new.
  destruct (validate b) as [reason|e|a rc]; [| |destruct (replyQueue s) as [q|]];
    cbn -[wallet_json]; rewrite ?alter_last; eexists; (split; [|reflexivity]);
    constructor.
Qed.

Lemma step_scope_existing s e h sc :
  scopes s !! h = Some sc ->
  exists sc', scopes (step s e) !! h = Some sc' /\ scope_step sc sc'.
Proof.
  intros Hh. destruct e as [q|b uuid|c delivery|h']; cbn.
  - unfold startup. destruct (replyQueue s); eauto using scope_step.
  - destruct (post_v1_new_scopes b uuid s) as (sc0 & _ & ->).
    rewrite lookup_app_l by (by eapply lookup_lt_Some).
    eauto using scope_step.
  - destruct (consumers s !! c) as [k|]; [|eauto using scope_step].
    unfold consume_callback.
    destruct delivery as [m|]; [|eauto using scope_step].
    destruct (matches k m); [|eauto using scope_step].
    destruct (content m) as [v|]; [|eauto using scope_step].
    destruct (get_prop v "address") as [a|]; [|eauto using scope_step].
    destruct (reply_payload _ _ _ _) as [payload|err];
      [rewrite scopes_send_json|]; cbn;
      (destruct (decide (owner k = h)) as [->|Hne];
       [rewrite !list_lookup_alter_eq, Hh; cbn; eauto using scope_step
       |rewrite !list_lookup_alter_ne by done; eauto using scope_step]).
  - unfold timer_callback.
    destruct (scopes s !! h') as [[r [|d []]]|] eqn:Hh'; eauto using scope_step.
    cbn. destruct (decide (h' = h)) as [->|Hne].
    + rewrite !list_lookup_alter_eq, Hh. cbn.
      assert (sc = {| res := r; cancelTimer := Timer d Armed |}) as -> by congruence.
      eexists; split; [reflexivity|]. by apply (scope_fired _ d).
    + rewrite !list_lookup_alter_ne by done. eauto using scope_step.
Qed.

Lemma step_scopes_shape s e :
  length (scopes (step s e)) = length (scopes s) \/
  exists sc, scope_entered sc /\ scopes (step s e) = scopes s ++ [sc].
Proof.
  destruct e as [q|b uuid|c delivery|h']; cbn.
  - left. unfold startup. by destruct (replyQueue s).
  - right. apply post_v1_new_scopes.
  - left. destruct (consumers s !! c) as [k|]; [|done].
    unfold consume_callback.
    destruct delivery as [m|]; [|done].
    destruct (matches k m); [|done].
    destruct (content m) as [v|]; [|done].
    destruct (get_prop v "address") as [a|]; [|done].
    destruct (reply_payload _ _ _ _) as [payload|err];
      [rewrite scopes_send_json|]; cbn; by rewrite !length_alter.
  - left. unfold timer_callback.
    destruct (scopes s !! h') as [[r [|d []]]|] eqn:Hh'; try done.
    cbn. by rewrite !length_alter.
Qed.

Lemma step_scope_new s e h sc' :
  scopes s !! h = None ->
  scopes (step s e) !! h = Some sc' ->
  scope_entered sc'.
Proof.
  intros Hnone Hsome.
  apply lookup_ge_None in Hnone. apply lookup_lt_Some in Hsome as Hlt.
  destruct (step_scopes_shape s e) as [Hlen|(sc & Hsc & Heq)].
  - lia.
  - rewrite Heq in Hsome, Hlt. rewrite length_app in Hlt. cbn in Hlt.
    assert (h = length (scopes s)) as -> by lia.
    rewrite lookup_app_r, Nat.sub_diag in Hsome by lia. cbn in Hsome.
    congruence.
Qed.

(** *** The life of a scope *)

Lemma status_only_first_app l payload :
  status_only_first l = true ->
  status_only_first (l ++ [Json payload]) = true.
Proof.
  destruct l as [|r l]; [done|]. cbn. intros H.
  by rewrite forallb_app, H.
Qed.

Lemma clearTimeout_not_armed t d : clearTimeout t <> Timer d Armed.
Proof. by destruct t as [|d' []]. Qed.

Lemma scope_entered_ok sc : scope_entered sc -> scope_ok sc.
Proof. intros []; split; cbn; congruence. Qed.

Lemma scope_step_ok sc sc' : scope_step sc sc' -> scope_ok sc -> scope_ok sc'.
Proof.
  intros Hstep [Hfirst Hempty]. destruct Hstep as [|payload| |d Harmed].
  - by split.
  - split; cbn.
    + by apply status_only_first_app.
    + intros d Hd. by apply clearTimeout_not_armed in Hd.
  - split; cbn.
    + done.
    + intros d Hd. by apply clearTimeout_not_armed in Hd.
  - split; cbn.
    + by rewrite (Hempty d Harmed).
    + congruence.
Qed.

Lemma step_scopes_ok s e :
  Forall scope_ok (scopes s) -> Forall scope_ok (scopes (step s e)).
Proof.
  rewrite !Forall_lookup. intros Hok h sc' Hsc'.
  destruct (scopes s !! h) as [sc|] eqn:Hh.
  - destruct (step_scope_existing s e h sc Hh) as (sc'' & Hsc'' & Hstep).
    assert (sc'' = sc') as -> by congruence.
    eapply scope_step_ok; eauto.
  - eapply scope_entered_ok, step_scope_new; eauto.
Qed.

Lemma reachable_scopes_ok events :
  Forall scope_ok (scopes (run initial events)).
Proof.
  apply (run_invariant (fun s => Forall scope_ok (scopes s))).
  - apply step_scopes_ok.
  - constructor.
Qed.

(** The order of the terminal calls that the code does keep.  On no
    invocation is a failure status sent after another terminal call: the
    reply branch clears the timer before it answers, so a reply is never
    followed by the timeout failure, and the timer callback runs once at
    most. *)
Lemma status_is_never_second (events : list event) :
  Forall (fun sc => status_only_first (res sc) = true)
         (scopes (run initial events)).
Proof.
  pose proof (reachable_scopes_ok events) as Hok.
  rewrite Forall_lookup in Hok. rewrite Forall_lookup.
  intros h sc Hsc. by destruct (Hok h sc Hsc).
Qed.

(** *** After the reply *)



(** *** Consumers and publications *)

Lemma step_attaches s e :
  exists lk lp,
    consumers (step s e) = consumers s ++ lk /\
    published (step s e) = published s ++ lp /\
    length lk = admitted Config decodeAddress s e /\
    length lp = admitted Config decodeAddress s e.
Proof.
  destruct e as [q|b uuid|c delivery|h']; cbn.
  - exists [], []. unfold startup. destruct (replyQueue s); cbn; by rewrite !app_nil_r.
  - unfold post_v1_new.
    destruct (validate b) as [reason|e|a rc]; [| |destruct (replyQueue s) as [q|]];
      cbn -[wallet_json]; try (exists [], []; by rewrite !app_nil_r).
    eexists [_], [_]. repeat split; reflexivity.
  - exists [], []. rewrite !app_nil_r.
    destruct (consumers s !! c) as [k|]; [|done].
    unfold consume_callback.
    destruct delivery as [m|]; [|done].
    destruct (matches k m); [|done].
    destruct (content m) as [v|]; [|done].
    destruct (get_prop v "address") as [a|]; [|done].
    destruct (reply_payload _ _ _ _) as [payload|err]; [|done].
    unfold send_json. by destruct (answered _ _).
  - exists [], []. rewrite !app_nil_r. unfold timer_callback.
    by destruct (scopes s !! h') as [[r [|d []]]|].
Qed.

Lemma run_consumers_length events s :
  length (consumers (run s events))
  = (length (consumers s) + admissions Config decodeAddress s events)%nat.
Proof.
  revert s. induction events as [|e rest IH]; intros s.
  - cbn. lia.
  - change (run s (e :: rest)) with (run (step s e) rest).
    cbn [admissions]. rewrite IH. destruct (step_attaches s e) as (lk & lp & -> & _ & <- & _).
    rewrite length_app. lia.
Qed.

Lemma run_consumers_prefix events s :
  consumers s `prefix_of` consumers (run s events).
Proof.
  apply (run_invariant (fun s' => consumers s `prefix_of` consumers s')); [|done].
  intros s' e Hpre. etrans; [exact Hpre|].
  destruct (step_attaches s' e) as (lk & _ & -> & _). by exists lk.
Qed.

(** C2, as the code has it.  Start-up attaches no consumer; a consumer is
    attached by each request that gets through the checks while the channel
    is there, and by nothing else, so the consumers of the reply queue are
    as many as those requests; and no consumer is ever detached. *)
Theorem one_consumer_per_admitted_request (events more : list event) :
  length (consumers (run initial events))
  = admissions Config decodeAddress initial events /\
  consumers (run initial events)
    `prefix_of` consumers (run initial (events ++ more)).
Proof.
  split.
  - by rewrite run_consumers_length.
  - rewrite run_app. apply run_consumers_prefix.
Qed.

(** C1, as the code has it.  A message whose correlation id is not the id of
    the request of the consumer it is delivered to is negatively
    acknowledged, which sends it back to the queue; it is not acknowledged,
    and the delivery changes no response, no timer, no consumer and no
    publication, raises nothing and logs nothing. *)
Theorem unmatched_reply_is_nacked
    (s : state) (c : nat) (k : consumer) (m : message) :
  consumers s !! c = Some k ->
  matches k m = false ->
  nacked (step s (Delivery c (Some m))) = nacked s ++ [m] /\
  acked (step s (Delivery c (Some m))) = acked s /\
  scopes (step s (Delivery c (Some m))) = scopes s /\
  consumers (step s (Delivery c (Some m))) = consumers s /\
  published (step s (Delivery c (Some m))) = published s /\
  uncaught (step s (Delivery c (Some m))) = uncaught s /\
  logged (step s (Delivery c (Some m))) = logged s.
Proof.
  intros Hk Hm. cbn. rewrite Hk. unfold consume_callback. rewrite Hm.
  by repeat split.
Qed.

Lemma reply_payload_returned k v a :
  cannot_convert a = false ->
  truthy (name k) = false \/
  (cannot_convert (name k) = false /\ uri_malformed (name k) = false) ->
  exists payload,
    reply_payload Config k v a = Returned payload /\
    sendToAddress payload = a /\
    startHeight payload = default VUndefined (get_prop v "scanHeight") /\
    endHeight payload = default VUndefined (get_prop v "maxHeight") /\
    callbackPublicKey payload = default VUndefined (get_prop v "publicKey") /\
    atomicAmount payload = wr_amount (walletRequest k) /\
    amount payload = amount_of k /\
    userDefined payload = wr_callerData (walletRequest k) /\
    confirmations payload = wr_confirmations (walletRequest k).
Proof.
  intros Ha Hname. unfold reply_payload. rewrite Ha.
  destruct Hname as [->|[-> ->]]; [|rewrite !andb_false_r];
    eexists; (split; [reflexivity|]); by repeat split.
Qed.

(** C6, as the code has it.  The callback of a consumer raises nothing on
    the [null] delivery, on a message for another request, and on a message
    for its own request whose content is JSON other than [null], while the
    response has not been answered, when the [address] of the content
    converts to a string and the name of the request is absent or converts
    to a string that [encodeURIComponent] accepts. *)
Theorem consumer_callback_quiet
    (s : state) (c : nat) (k : consumer) (delivery : option message) :
  consumers s !! c = Some k ->
  delivery = None \/
  (exists m, delivery = Some m /\ matches k m = false) \/
  (exists m v a, delivery = Some m /\ content m = Some v /\
                 get_prop v "address" = Some a /\
                 cannot_convert a = false /\
                 (truthy (name k) = false \/
                  (cannot_convert (name k) = false /\
                   uri_malformed (name k) = false)) /\
                 answered (owner k) s = false) ->
  uncaught (step s (Delivery c delivery)) = uncaught s.
Proof.
  intros Hk Hcases. cbn. rewrite Hk. unfold consume_callback.
  destruct Hcases
    as [->|[(m & -> & Hm)|(m & v & a & -> & Hv & Ha & Hconv & Hname & Hans)]].
  - done.
  - by rewrite Hm.
  - destruct (matches k m); [|done]. rewrite Hv, Ha.
    destruct (reply_payload_returned k v a Hconv Hname) as (payload & -> & _).
    unfold send_json, answered in *. cbn.
    rewrite list_lookup_alter_eq.
    destruct (scopes s !! owner k) as [sc|]; cbn in *; [|done].
    by rewrite Hans.
Qed.

Lemma step_replyQueue s e q :
  replyQueue s = Some q -> replyQueue (step s e) = Some q.
Proof.
  intros Hq. destruct e as [q'|b uuid|c delivery|h']; cbn.
  - unfold startup. by rewrite Hq.
  - unfold post_v1_new.
    by destruct (validate b) as [reason|e|a rc]; [| |rewrite Hq].
  - destruct (consumers s !! c) as [k|]; [|done].
    unfold consume_callback.
    destruct delivery as [m|]; [|done].
    destruct (matches k m); [|done].
    destruct (content m) as [v|]; [|done].
    destruct (get_prop v "address") as [a|]; [|done].
    destruct (reply_payload _ _ _ _) as [payload|err]; [|done].
    unfold send_json. by destruct (answered _ _).
  - unfold timer_callback.
    by destruct (scopes s !! h') as [[r [|d []]]|].
Qed.

Lemma scope_step_delay sc sc' :
  scope_step sc sc' ->
  forall d st, cancelTimer sc = Timer d st ->
               exists st', cancelTimer sc' = Timer d st'.
Proof.
  intros [|payload| |d' Harmed] d st Ht; cbn.
  - eauto.
  - rewrite Ht. destruct st; cbn; eauto.
  - rewrite Ht. destruct st; cbn; eauto.
  - rewrite Harmed in Ht. injection Ht as <- _. eauto.
Qed.

Lemma post_v1_new_accepted b uuid s a rc q :
  validate b = Accept a rc ->
  replyQueue s = Some q ->
  exists k p,
    consumers (post_v1_new b uuid s) = consumers s ++ [k] /\
    published (post_v1_new b uuid s) = published s ++ [p] /\
    scopes (post_v1_new b uuid s)
    = scopes s ++ [{| res := []; cancelTimer := Timer requestTimeout Armed |}] /\
    owner k = length (scopes s) /\
    requestId k = pub_correlationId p /\
    replyTo p = q /\ queue p = walletQueue /\
    expiration p = messageExpiration /\
    work p = build_walletRequest b a rc /\
    pub_content p = wallet_json (work p).
Proof.
  intros Hv Hq. unfold post_v1_new. rewrite Hv, Hq. cbn -[wallet_json].
  rewrite alter_last. eexists _, _. repeat split; reflexivity.
Qed.

Lemma publication_ok_step s e i p :
  publication_ok s i p -> publication_ok (step s e) i p.
Proof.
  intros (Hq & Hw & Hx & k & sc & st & Hk & Hid & Hsc & Ht).
  split; [by apply step_replyQueue|]. do 2 (split; [done|]).
  destruct (step_attaches s e) as (lk & _ & -> & _).
  destruct (step_scope_existing s e _ _ Hsc) as (sc' & Hsc' & Hstep).
  destruct (scope_step_delay _ _ Hstep _ _ Ht) as (st' & Ht').
  exists k, sc', st'. split; [|done].
  by apply lookup_app_l_Some.
Qed.

Lemma step_publications_ok s e :
  publications_ok s -> publications_ok (step s e).
Proof.
  intros [Hlen Hall].
  destruct (step_attaches s e) as (lk & lp & Hlk & Hlp & Hnk & Hnp).
  split.
  - rewrite Hlk, Hlp, !length_app. lia.
  - intros i p Hp. rewrite Hlp in Hp.
    apply lookup_app_Some in Hp as [Hold|[Hge Hnew]].
    + by apply publication_ok_step, Hall.
    + destruct e as [q'|b uuid|c delivery|h']; cbn in Hnp;
        try (destruct lp; [by rewrite lookup_nil in Hnew|done]).
      destruct (validate b) as [reason|e|a rc] eqn:Hv;
        try (destruct lp; [by rewrite lookup_nil in Hnew|done]).
      destruct (replyQueue s) as [q|] eqn:Hq;
        try (destruct lp; [by rewrite lookup_nil in Hnew|done]).
      destruct (post_v1_new_accepted b uuid s a rc q Hv Hq)
        as (k & p' & Hk' & Hp' & Hsc' & Ho & Hid & Hr & Hw & Hx & _).
      cbn in Hlp. rewrite Hp' in Hlp. apply app_inv_head in Hlp as <-.
      apply list_lookup_singleton_Some in Hnew as [Hi ->].
      assert (i = length (consumers s)) as -> by lia.
      split; [|do 2 (split; [done|])].
      * subst q. apply (step_replyQueue s (Request b uuid) _ Hq).
      * cbn. exists k, {| res := []; cancelTimer := Timer requestTimeout Armed |}, Armed.
        rewrite Hk', Hsc', Ho.
        rewrite !lookup_app_r, !Nat.sub_diag by lia. done.
Qed.

Lemma reachable_publications_ok events :
  publications_ok (run initial events).
Proof.
  apply (run_invariant (publications_ok)).
  - apply step_publications_ok.
  - split; [done|]. intros i p Hp. cbn in Hp. by rewrite lookup_nil in Hp.
Qed.

(** C8.  Every work item published goes to the work queue and carries the
    reply queue of the process as its reply address and a message TTL that
    is at most the delay of the timer of its request. *)
Theorem publication_replyTo_and_ttl
    (events : list event) (i : nat) (p : publication) :
  published (run initial events) !! i = Some p ->
  queue p = walletQueue /\
  replyQueue (run initial events) = Some (replyTo p) /\
  exists k sc d st,
    consumers (run initial events) !! i = Some k /\
    requestId k = pub_correlationId p /\
    scopes (run initial events) !! owner k = Some sc /\
    cancelTimer sc = Timer d st /\
    expiration p <= d.
Proof.
  intros Hp.
  destruct (reachable_publications_ok events) as [_ Hall].
  destruct (Hall i p Hp) as (Hq & Hw & Hx & k & sc & st & Hk & Hid & Hsc & Ht).
  do 2 (split; [done|]). exists k, sc, requestTimeout, st.
  repeat split; try done. rewrite Hx. by vm_compute.
Qed.


(** *** The checks of the handler *)

Lemma set_confirmations_same b : set_confirmations (body_confirmations b) b = b.
Proof. by destruct b. Qed.

(** [toNumber] raises on the values that cannot be converted to a string,
    and what it raises is a TypeError. *)
Lemma toNumber_returns v :
  cannot_convert v = false -> exists x, toNumber v = Returned x.
Proof.
  intros Hv. unfold toNumber.
  destruct v as [| | |[z|f| |neg]|str|fields|items]; eauto;
    rewrite Hv; eauto.
Qed.

Lemma toNumber_thrown v e :
  toNumber v = Thrown e -> e = TypeError /\ cannot_convert v = true.
Proof.
  unfold toNumber.
  destruct v as [| | |[z|f| |neg]|str|fields|items]; try discriminate;
    destruct (cannot_convert _); try discriminate; by intros [= <-].
Qed.

(** The check of the confirmations is the last one, and the only one that
    reads them. *)
Lemma checks_confirmations b a c :
  checks b a c
  = match checks b a PFalse with
    | Accept a' _ =>
        if negb (is_false c) then
          if parsed_ltb c 0 || parsed_gtb c (maximumConfirmations Config)
          then Reject "Invalid confirmations requested"
          else Accept a' c
        else Accept a' (PNum (NInt (defaultConfirmations Config)))
    | other => other
    end.
Proof.
  unfold checks.
  destruct (negb (parsed_truthy _)); [done|].
  destruct (negb (decodeAddress _)); [done|].
  unfold check_callback.
  destruct (truthy _);
    [destruct (or_false _); try done; destruct (negb (String.eqb _ _)); try done|];
    by destruct (_ || _ || _).
Qed.

Lemma validate_confirmations b v c :
  toNumber v = Returned c ->
  validate (set_confirmations v b)
  = match validate (set_confirmations VUndefined b) with
    | Accept a _ =>
        if negb (is_false c) then
          if parsed_ltb c 0 || parsed_gtb c (maximumConfirmations Config)
          then Reject "Invalid confirmations requested"
          else Accept a c
        else Accept a (PNum (NInt (defaultConfirmations Config)))
    | other => other
    end.
Proof.
  intros Hc. unfold validate.
  cbn [body_amount body_confirmations set_confirmations]. rewrite Hc.
  destruct (toNumber (body_amount b)) as [a|e]; [|reflexivity].
  change (toNumber VUndefined) with (Returned PFalse).
  cbv beta iota.
  rewrite (checks_confirmations (set_confirmations v b) a c). reflexivity.
Qed.

Lemma validate_absent_default b a rc :
  validate (set_confirmations VUndefined b) = Accept a rc ->
  rc = PNum (NInt (defaultConfirmations Config)).
Proof.
  rewrite (validate_confirmations b VUndefined PFalse) by reflexivity.
  destruct (validate (set_confirmations VUndefined b)); try discriminate.
  cbn. by intros [= _ <-].
Qed.

Lemma validate_absent_reason b :
  validate (set_confirmations VUndefined b)
  <> Reject "Invalid confirmations requested".
Proof.
  unfold validate. cbn [body_amount body_confirmations set_confirmations].
  destruct (toNumber (body_amount b)) as [a|e]; [|discriminate].
  change (toNumber VUndefined) with (Returned PFalse). cbv beta iota.
  unfold checks.
  destruct (negb (parsed_truthy _)); [discriminate|].
  destruct (negb (decodeAddress _)); [discriminate|].
  unfold check_callback.
  destruct (truthy _);
    [destruct (or_false _); try discriminate;
     destruct (negb (String.eqb _ _)); try discriminate|];
    destruct (_ || _ || _); discriminate.
Qed.

Lemma validate_ignores_false b v :
  toNumber v = Returned PFalse ->
  validate (set_confirmations v b) = validate (set_confirmations VUndefined b).
Proof.
  intros Hfalse. rewrite (validate_confirmations b v PFalse Hfalse). cbn.
  destruct (validate (set_confirmations VUndefined b)) eqn:Hv; try reflexivity.
  by rewrite (validate_absent_default b _ _ Hv).
Qed.

(** C7, as the code has it.  Take a request that passes the checks when it
    names no confirmations.  Without confirmations it is published with the
    default count; with a number of confirmations below 0 or above the
    maximum it is answered with status 400, and nothing is published,
    attached or timed for it. *)
Theorem confirmations_out_of_range_rejected
    (s : state) (b : body) (uuid q : string) (a rc : parsed) :
  replyQueue s = Some q ->
  validate (set_confirmations VUndefined b) = Accept a rc ->
  (exists p,
     published (step s (Request (set_confirmations VUndefined b) uuid))
     = published s ++ [p] /\
     wr_confirmations (work p) = PNum (NInt (defaultConfirmations Config))) /\
  forall n,
    toNumber (body_confirmations b) = Returned (PNum n) ->
    num_ltb n 0 || num_gtb n (maximumConfirmations Config) = true ->
    validate b = Reject "Invalid confirmations requested" /\
    published (step s (Request b uuid)) = published s /\
    consumers (step s (Request b uuid)) = consumers s /\
    scopes (step s (Request b uuid))
    = scopes s ++ [{| res := [Status 400]; cancelTimer := NoTimer |}].
Proof.
  intros Hq Hv. split.
  - destruct (post_v1_new_accepted _ uuid s a rc q Hv Hq)
      as (k & p & _ & Hp & _ & _ & _ & _ & _ & _ & Hw & _).
    exists p. split; [exact Hp|]. rewrite Hw.
    cbn [wr_confirmations build_walletRequest].
    exact (validate_absent_default b a rc Hv).
  - intros n Hn Hout.
    assert (Hrej : validate b = Reject "Invalid confirmations requested").
    { rewrite <- (set_confirmations_same b).
      rewrite (validate_confirmations b _ _ Hn), Hv.
      cbn. by rewrite Hout. }
    split; [exact Hrej|]. cbn. unfold post_v1_new. rewrite Hrej. cbn.
    by rewrite alter_last.
Qed.

(** C10.  A value of [confirmations] that is a Number with a fractional
    part, or a string that [parseInt] and [toString] do not give back, makes
    [toNumber] return [false]; the handler then does what it does when the
    request names no confirmations: it does not reject the request for its
    confirmations, and when it accepts the request it uses the default
    count.  So a request that passes the checks without confirmations
    passes them with such a value, and, the channel being there, its work
    item is published with the default count, in the work item and in the
    content of the message. *)
Theorem non_integer_confirmations_ignored (s : state) (b : body) (uuid : string) :
  not_an_integer (body_confirmations b) = true ->
  toNumber (body_confirmations b) = Returned PFalse /\
  step s (Request b uuid)
  = step s (Request (set_confirmations VUndefined b) uuid) /\
  validate b <> Reject "Invalid confirmations requested" /\
  (forall a rc, validate b = Accept a rc ->
                rc = PNum (NInt (defaultConfirmations Config))) /\
  forall a rc q,
    validate (set_confirmations VUndefined b) = Accept a rc ->
    replyQueue s = Some q ->
    validate b = Accept a (PNum (NInt (defaultConfirmations Config))) /\
    exists p,
      published (step s (Request b uuid)) = published s ++ [p] /\
      wr_confirmations (work p) = PNum (NInt (defaultConfirmations Config)) /\
      get_prop (pub_content p) "confirmations"
      = Some (VNum (NInt (defaultConfirmations Config))).
Proof.
  intros Hnot.
  assert (Hfalse : toNumber (body_confirmations b) = Returned PFalse).
  { destruct (body_confirmations b) as [| | |[z|f| |neg]|str| |];
      try discriminate Hnot; try reflexivity.
    unfold not_an_integer in Hnot. unfold toNumber.
    destruct (String.eqb _ str); [discriminate Hnot|reflexivity]. }
  assert (Hsame : validate b = validate (set_confirmations VUndefined b)).
  { rewrite <- (set_confirmations_same b) at 1.
    by apply validate_ignores_false. }
  split; [exact Hfalse|]. split; [|split; [|split]].
  - cbn [step]. unfold post_v1_new. rewrite <- Hsame. reflexivity.
  - rewrite Hsame. apply validate_absent_reason.
  - intros a rc. rewrite Hsame. apply validate_absent_default.
  - intros a rc q Hv Hq.
    pose proof (validate_absent_default b a rc Hv) as ->.
    rewrite <- Hsame in Hv. split; [exact Hv|].
    destruct (post_v1_new_accepted b uuid s _ _ q Hv Hq)
      as (k & p & _ & Hp & _ & _ & _ & _ & _ & _ & Hw & Hc).
    exists p. split; [exact Hp|]. rewrite Hc, Hw. split; [reflexivity|].
    by rewrite wallet_json_confirmations.
Qed.

(** *** The amount and the callback *)

(** A request that gets through the checks has a strictly positive integer
    for its amount. *)
Lemma accepted_amount_positive b a rc :
  validate b = Accept a rc -> positive_integer (body_amount b).
Proof.
  unfold validate.
  destruct (toNumber (body_amount b)) as [a0|e] eqn:Ha; [|discriminate].
  destruct (toNumber (body_confirmations b)) as [c|e]; [|discriminate].
  unfold checks.
  destruct (parsed_truthy a0) eqn:Htruthy; [|discriminate].
  cbn [negb].
  destruct (negb (decodeAddress _)); [discriminate|].
  destruct (check_callback _) as [v|] eqn:Hcb.
  { unfold check_callback in Hcb. intros ->.
    destruct (truthy _); [|discriminate].
    destruct (or_false _); try discriminate.
    destruct (negb (String.eqb _ _)); discriminate. }
  cbn [negb orb].
  destruct (parsed_is_zero _) eqn:Hzero; [discriminate|]. cbn [orb].
  destruct (parsed_ltb _ 0) eqn:Hneg; [discriminate|]. intros _.
  destruct (body_amount b) as [| | |[z|f| |neg]|str|fields|items];
    try (cbn in Ha; injection Ha as <-; discriminate Htruthy);
    try (unfold toNumber in Ha; destruct (cannot_convert _);
         [discriminate Ha|injection Ha as <-; discriminate Htruthy]).
  - cbn in Ha. injection Ha as <-. cbn in *. lia.
  - destruct a0 as [[x|f| |neg]|]; try discriminate Htruthy.
    + cbn in Hzero, Hneg. apply (toNumber_string_positive str x Ha). lia.
    + unfold toNumber in Ha.
      destruct (String.eqb _ str); [|discriminate].
      by destruct (parseInt str).
    + unfold toNumber in Ha.
      destruct (String.eqb _ str) eqn:Heq; [|discriminate].
      apply String.eqb_eq in Heq.
      destruct (parseInt str) as [|z|neg'] eqn:Hparse; try discriminate Ha.
      subst str. destruct neg'; vm_compute in Hparse; discriminate.
Qed.

(** Whatever else a request holds, an amount that is not a strictly positive
    integer keeps it away from the channel: nothing is attached, published
    or timed for it. *)
Lemma bad_amount_never_published s b uuid :
  ~ positive_integer (body_amount b) ->
  consumers (step s (Request b uuid)) = consumers s /\
  published (step s (Request b uuid)) = published s /\
  exists r, scopes (step s (Request b uuid))
            = scopes s ++ [{| res := r; cancelTimer := NoTimer |}].
Proof.
  intros Hbad. cbn [step]. unfold post_v1_new.
  destruct (validate b) as [reason|e|a rc] eqn:Hv.
  - cbn. rewrite alter_last. eauto.
  - cbn. eauto.
  - by apply accepted_amount_positive in Hv.
Qed.

(** The handler answers such a request with status 400 unless [toNumber] or
    the check of the callback raises first. *)
Lemma bad_amount_rejected_or_raised b :
  ~ positive_integer (body_amount b) ->
  (exists reason, validate b = Reject reason) \/ validate b = Raise TypeError.
Proof.
  intros Hbad. destruct (validate b) as [reason|e|a rc] eqn:Hv.
  - eauto.
  - right. revert Hv. unfold validate.
    destruct (toNumber (body_amount b)) as [a0|e0] eqn:Ha;
      [|apply toNumber_thrown in Ha as [-> _]; by intros [= <-]].
    destruct (toNumber (body_confirmations b)) as [c|e0] eqn:Hc;
      [|apply toNumber_thrown in Hc as [-> _]; by intros [= <-]].
    unfold checks.
    destruct (negb (parsed_truthy _)); [discriminate|].
    destruct (negb (decodeAddress _)); [discriminate|].
    unfold check_callback.
    destruct (truthy _);
      [destruct (or_false _); try (by intros [= <-]);
       destruct (negb (String.eqb _ _)); try discriminate|];
      destruct (_ || _ || _); try discriminate;
      destruct (negb (is_false _)); try discriminate;
      destruct (_ || _); discriminate.
  - by apply accepted_amount_positive in Hv.
Qed.

(** A callback that is a string is checked for its first four characters,
    once the two calls of [toNumber] have returned. *)
Lemma string_callback_rejected b str :
  cannot_convert (body_amount b) = false ->
  cannot_convert (body_confirmations b) = false ->
  body_callback b = VStr str ->
  str <> "" ->
  toLowerCase (prefix 4 str) <> "http" ->
  exists reason, validate b = Reject reason.
Proof.
  intros Ha Hc Hcb Hne Hhttp. unfold validate.
  destruct (toNumber_returns _ Ha) as (a & ->).
  destruct (toNumber_returns _ Hc) as (c & ->).
  unfold checks.
  destruct (negb (parsed_truthy _)); [eauto|].
  destruct (negb (decodeAddress _)); [eauto|].
  rewrite Hcb. unfold or_false, check_callback. cbn [truthy].
  destruct (String.eqb_spec str "") as [|_]; [done|]. cbn [negb truthy].
  destruct (String.eqb_spec str "") as [|_]; [done|]. cbn [negb].
  destruct (String.eqb_spec (toLowerCase (prefix 4 str)) "http") as [|_]; [done|].
  cbn [negb]. eauto.
Qed.

End Properties.

(** ** The handler on the sample deployment *)

(** C1, as the design document has it, fails: a message for another request
    is not acknowledged; it is negatively acknowledged. *)
Lemma foreign_reply_goes_back_to_the_queue :
  matches sample_consumer (reply_for other_uuid (Some sample_reply)) = false /\
  acked (step sample_config sample_decoder sample_started
           (Delivery 0 (Some (reply_for other_uuid (Some sample_reply))))) = [] /\
  nacked (step sample_config sample_decoder sample_started
            (Delivery 0 (Some (reply_for other_uuid (Some sample_reply)))))
  = [reply_for other_uuid (Some sample_reply)].
Proof. by vm_compute. Qed.

Lemma unmatched_reply_is_nacked_witness :
  nacked (step sample_config sample_decoder sample_started
            (Delivery 0 (Some (reply_for other_uuid (Some sample_reply)))))
  = nacked sample_started ++ [reply_for other_uuid (Some sample_reply)].
Proof.
  apply (unmatched_reply_is_nacked sample_config sample_decoder
           sample_started 0 sample_consumer).
  - vm_compute. reflexivity.
  - vm_compute. reflexivity.
Defined.

(** C2, as the design document has it, fails: start-up attaches no
    consumer, and each of two good requests attaches one. *)
Lemma each_request_attaches_a_consumer :
  consumers (sample_run [Startup sample_queue]) = [] /\
  length (consumers sample_started) = 1%nat /\
  length (consumers (sample_run [Startup sample_queue;
                                 Request sample_body sample_uuid;
                                 Request sample_body other_uuid])) = 2%nat.
Proof. by vm_compute. Qed.

(** C3 on a reply whose [address] cannot be converted to a string, and on
    a request whose name cannot.  The reply branch acknowledges the
    message, clears the timer and logs the request as served; making
    [qrCode] then raises, before [res.json] is called.  The response has
    not been answered, and the timer, which was cleared, will not answer
    it: the request has come to no end, neither by a reply nor by the
    timeout. *)
Lemma unprintable_reply_leaves_no_answer :
  (let s := sample_run
              [Startup sample_queue; Request sample_body sample_uuid;
               Delivery 0 (Some (reply_for sample_uuid (Some unprintable_reply)))] in
   scopes s = [{| res := []; cancelTimer := Timer requestTimeout Cleared |}] /\
   acked s = [reply_for sample_uuid (Some unprintable_reply)] /\
   logged s = [HTTPRequest 0 (walletRequest sample_consumer)] /\
   uncaught s = [TypeError] /\
   step sample_config sample_decoder s (Elapsed 0) = s) /\
  (let s := sample_run
              [Startup sample_queue;
               Request (set_name unprintable sample_body) sample_uuid;
               Delivery 0 (Some (reply_for sample_uuid (Some sample_reply)))] in
   scopes s = [{| res := []; cancelTimer := Timer requestTimeout Cleared |}] /\
   acked s = [reply_for sample_uuid (Some sample_reply)] /\
   uncaught s = [TypeError] /\
   step sample_config sample_decoder s (Elapsed 0) = s).
Proof. by vm_compute. Qed.

(** A reply that comes after the timer has run, and a reply that comes
    twice.  The timer callback has answered 500; the reply branch runs all
    the same: it acknowledges the message, logs the request as served and
    calls [res.json] on the response that was answered, which raises, so
    that the caller has the first answer only. *)
Lemma reply_after_timeout_answers_again :
  (exists payload,
     let s := sample_run
                [Startup sample_queue; Request sample_body sample_uuid;
                 Elapsed 0;
                 Delivery 0 (Some (reply_for sample_uuid (Some sample_reply)))] in
     res <$> scopes s = [[Status 500; Json payload]] /\
     acked s = [reply_for sample_uuid (Some sample_reply)] /\
     logged s = [HTTPError 0 "RPC request timed out";
                 HTTPRequest 0 (walletRequest sample_consumer)] /\
     uncaught s = [HeadersSent]) /\
  (exists payload,
     let s := sample_run
                [Startup sample_queue; Request sample_body sample_uuid;
                 Delivery 0 (Some (reply_for sample_uuid (Some sample_reply)));
                 Delivery 0 (Some (reply_for sample_uuid (Some sample_reply)))] in
     res <$> scopes s = [[Json payload; Json payload]] /\
     uncaught s = [HeadersSent]).
Proof. split; eexists; vm_compute; repeat split; reflexivity. Qed.

(** C4 on a request with a negative amount and a callback that is a Number:
    the check of the callback raises before the amount is looked at again,
    and no status is sent. *)
Lemma negative_amount_with_number_callback_raises :
  let b := set_callback (VNum (NInt 5)) (set_amount (VNum (NInt (-5))) sample_body) in
  let s := sample_run [Startup sample_queue; Request b sample_uuid] in
  validate sample_config sample_decoder b = Raise TypeError /\
  scopes s = [{| res := []; cancelTimer := NoTimer |}] /\
  uncaught s = [TypeError] /\ published s = [] /\ logged s = [].
Proof. by vm_compute. Qed.



(** C6, as the design document has it, fails: a message for the request of
    the consumer whose content is not JSON makes the callback raise, before
    the message is acknowledged; and a message for another request is
    neither logged nor dropped, it goes back to the queue. *)
Lemma malformed_reply_raises :
  uncaught (step sample_config sample_decoder sample_started
              (Delivery 0 (Some (reply_for sample_uuid None)))) = [SyntaxError] /\
  acked (step sample_config sample_decoder sample_started
           (Delivery 0 (Some (reply_for sample_uuid None)))) = [] /\
  logged (step sample_config sample_decoder sample_started
            (Delivery 0 (Some (reply_for sample_uuid None)))) = [] /\
  logged (step sample_config sample_decoder sample_started
            (Delivery 0 (Some (reply_for other_uuid None)))) = [] /\
  nacked (step sample_config sample_decoder sample_started
            (Delivery 0 (Some (reply_for other_uuid None))))
  = [reply_for other_uuid None].
Proof. by vm_compute. Qed.

Lemma consumer_callback_quiet_witness :
  uncaught (step sample_config sample_decoder sample_started
              (Delivery 0 (Some (reply_for sample_uuid (Some sample_reply)))))
  = uncaught sample_started.
Proof.
  apply (consumer_callback_quiet sample_config sample_decoder
           sample_started 0 sample_consumer).
  - vm_compute. reflexivity.
  - right. right.
    exists (reply_for sample_uuid (Some sample_reply)), sample_reply,
           (VStr "valid123").
    split; [reflexivity|]. split; [reflexivity|]. split; [reflexivity|].
    split; [reflexivity|]. split; [left; reflexivity|].
    vm_compute. reflexivity.
Defined.

(** C7, as the design document has it, fails: a number of confirmations
    above the maximum does not bring the default count in; the request is
    answered with status 400 and nothing is published. *)
Lemma too_many_confirmations_rejected :
  let b := set_confirmations (VNum (NInt 999999)) sample_body in
  let s := sample_run [Startup sample_queue; Request b sample_uuid] in
  scopes s = [{| res := [Status 400]; cancelTimer := NoTimer |}] /\
  published s = [] /\
  logged s = [HTTPError 0 "Invalid confirmations requested"].
Proof. by vm_compute. Qed.

Lemma confirmations_out_of_range_rejected_witness :
  validate sample_config sample_decoder
    (set_confirmations (VNum (NInt 999999)) sample_body)
  = Reject "Invalid confirmations requested".
Proof.
  destruct (confirmations_out_of_range_rejected sample_config sample_decoder
              (sample_run [Startup sample_queue])
              (set_confirmations (VNum (NInt 999999)) sample_body)
              sample_uuid sample_queue
              (PNum (NInt 1000000))
              (PNum (NInt (defaultConfirmations sample_config))))
    as [_ Hout].
  - vm_compute. reflexivity.
  - vm_compute. reflexivity.
  - apply (Hout (NInt 999999)).
    + vm_compute. reflexivity.
    + vm_compute. reflexivity.
Defined.

Lemma publication_replyTo_and_ttl_witness :
  queue sample_publication = walletQueue /\
  replyQueue sample_started = Some (replyTo sample_publication) /\
  exists k sc d st,
    consumers sample_started !! 0%nat = Some k /\
    requestId k = pub_correlationId sample_publication /\
    scopes sample_started !! owner k = Some sc /\
    cancelTimer sc = Timer d st /\
    expiration sample_publication <= d.
Proof.
  apply (publication_replyTo_and_ttl sample_config sample_decoder
           [Startup sample_queue; Request sample_body sample_uuid]).
  vm_compute. reflexivity.
Defined.

(** C9 on a request with a callback that is a Number: reading [substring]
    of it raises, and no status is sent. *)
Lemma number_callback_raises :
  let b := set_callback (VNum (NInt 5)) sample_body in
  let s := sample_run [Startup sample_queue; Request b sample_uuid] in
  validate sample_config sample_decoder b = Raise TypeError /\
  scopes s = [{| res := []; cancelTimer := NoTimer |}] /\
  uncaught s = [TypeError] /\ published s = [] /\ logged s = [].
Proof. by vm_compute. Qed.

Lemma non_integer_confirmations_ignored_witness :
  toNumber (VStr "abc") = Returned PFalse /\
  validate sample_config sample_decoder
    (set_confirmations (VStr "abc") sample_body)
  = Accept (PNum (NInt 1000000)) (PNum (NInt 20)) /\
  exists p,
    published (step sample_config sample_decoder (sample_run [Startup sample_queue])
                 (Request (set_confirmations (VStr "abc") sample_body) sample_uuid))
    = [p] /\
    wr_confirmations (work p) = PNum (NInt 20) /\
    get_prop (pub_content p) "confirmations" = Some (VNum (NInt 20)).
Proof.
  destruct (non_integer_confirmations_ignored sample_config sample_decoder
              (sample_run [Startup sample_queue])
              (set_confirmations (VStr "abc") sample_body) sample_uuid)
    as (Hfalse & _ & _ & _ & Hpub).
  - vm_compute. reflexivity.
  - destruct (Hpub (PNum (NInt 1000000)) (PNum (NInt 20)) sample_queue)
      as (Hv & p & Hp & Hw & Hc).
    + vm_compute. reflexivity.
    + vm_compute. reflexivity.
    + split; [exact Hfalse|]. split; [exact Hv|].
      exists p. split; [exact Hp|]. split; [exact Hw|exact Hc].
Defined.

(** ** Further properties: [toNumber] *)

Lemma digit_value_digit_char d :
  0 <= d < 10 -> digit_value 10 (digit_char d) = Some d.
Proof.
  intros H.
  assert (d = 0 \/ d = 1 \/ d = 2 \/ d = 3 \/ d = 4 \/ d = 5 \/ d = 6 \/ d = 7
          \/ d = 8 \/ d = 9) as Hd by lia.
  repeat (destruct Hd as [->|Hd]; [reflexivity|]). by subst.
Qed.

Lemma digit_char_facts c d :
  digit_value 10 c = Some d ->
  is_whitespace c = false /\ c <> "-"%char /\ c <> "+"%char /\
  c <> "x"%char /\ c <> "X"%char.
Proof.
  intros H. repeat split; try (intros ->; discriminate H).
  destruct c as [[] [] [] [] [] [] [] []]; try reflexivity; discriminate H.
Qed.

Lemma strip_hex_prefix_none c1 c2 rest :
  c2 <> "x"%char -> c2 <> "X"%char ->
  strip_hex_prefix (String c1 (String c2 rest)) = (10, String c1 (String c2 rest)).
Proof.
  intros Hx HX. unfold strip_hex_prefix.
  destruct c1 as [[] [] [] [] [] [] [] []]; try reflexivity.
  destruct c2 as [[] [] [] [] [] [] [] []]; try reflexivity; congruence.
Qed.

Lemma strip_sign_none c rest :
  c <> "-"%char -> c <> "+"%char ->
  strip_sign (String c rest) = (false, String c rest).
Proof.
  intros Hm Hp. unfold strip_sign.
  destruct c as [[] [] [] [] [] [] [] []]; try reflexivity; congruence.
Qed.

(** On a string of decimal digits [parseInt] reads the whole string. *)
Lemma parseInt_digits s :
  s <> "" -> all_digits s = true ->
  parseInt s = match read_digits 10 s None with
               | Some m => to_double false m
               | None => INaN
               end.
Proof.
  destruct s as [|c1 rest]; [done|]. intros _ Hall. cbn in Hall.
  destruct (digit_value 10 c1) as [d1|] eqn:H1; [|discriminate].
  destruct (digit_char_facts c1 d1 H1) as (Hw & Hm & Hp & _).
  unfold parseInt. cbn [skip_whitespace]. rewrite Hw.
  rewrite (strip_sign_none c1 rest Hm Hp). cbv beta iota.
  destruct rest as [|c2 rest'].
  - by destruct c1 as [[] [] [] [] [] [] [] []].
  - cbn in Hall. destruct (digit_value 10 c2) as [d2|] eqn:H2; [|discriminate].
    destruct (digit_char_facts c2 d2 H2) as (_ & _ & _ & Hx & HX).
    pose proof (strip_hex_prefix_none c1 c2 rest' Hx HX) as E.
    destruct (strip_hex_prefix _) as [radix s2]. by simplify_eq.
Qed.

Lemma parseInt_minus_digits s :
  s <> "" -> all_digits s = true ->
  parseInt ("-" +:+ s) = match read_digits 10 s None with
                         | Some m => to_double true m
                         | None => INaN
                         end.
Proof.
  destruct s as [|c1 rest]; [done|]. intros _ Hall. cbn in Hall.
  destruct (digit_value 10 c1) as [d1|] eqn:H1; [|discriminate].
  change ("-" +:+ String c1 rest) with (String "-" (String c1 rest)).
  unfold parseInt. cbn [skip_whitespace].
  replace (is_whitespace "-") with false by reflexivity.
  cbn [strip_sign]. cbv beta iota.
  destruct rest as [|c2 rest'].
  - by destruct c1 as [[] [] [] [] [] [] [] []].
  - cbn in Hall. destruct (digit_value 10 c2) as [d2|] eqn:H2; [|discriminate].
    destruct (digit_char_facts c2 d2 H2) as (_ & _ & _ & Hx & HX).
    pose proof (strip_hex_prefix_none c1 c2 rest' Hx HX) as E.
    destruct (strip_hex_prefix _) as [radix s2]. by simplify_eq.
Qed.

Lemma decimal_go_all_digits fuel n acc :
  all_digits acc = true -> all_digits (decimal_go fuel n acc) = true.
Proof.
  revert n acc. induction fuel as [|fuel IH]; intros n acc Hacc; cbn; [done|].
  assert (Hd : all_digits (String (digit_char (n mod 10)) acc) = true).
  { cbn [all_digits]. rewrite digit_value_digit_char; [done|].
    apply Z.mod_pos_bound. lia. }
  destruct (n / 10 =? 0); [exact Hd|]. by apply IH.
Qed.

Lemma decimal_go_nonempty fuel n c acc :
  decimal_go fuel n (String c acc) <> "".
Proof.
  revert n c acc. induction fuel as [|fuel IH]; intros n c acc; cbn; [done|].
  destruct (n / 10 =? 0); [done|]. apply IH.
Qed.

Lemma decimal_all_digits n : all_digits (decimal n) = true.
Proof. by apply decimal_go_all_digits. Qed.

Lemma decimal_nonempty n : decimal n <> "".
Proof.
  unfold decimal. cbn. destruct (n / 10 =? 0); [done|].
  apply decimal_go_nonempty.
Qed.

Lemma read_digits_decimal_go fuel n acc :
  fuel <> 0%nat -> 0 <= n < 2 ^ Z.of_nat fuel ->
  read_digits 10 (decimal_go fuel n acc) None = read_digits 10 acc (Some n).
Proof.
  revert n acc. induction fuel as [|fuel IH]; intros n acc Hfuel Hn; [done|].
  cbn [decimal_go].
  assert (Hmod : 0 <= n mod 10 < 10) by (apply Z.mod_pos_bound; lia).
  pose proof (Z.div_mod n 10 ltac:(lia)) as Hdm.
  destruct (Z.eqb_spec (n / 10) 0) as [Hz|Hnz].
  - cbn [read_digits]. rewrite digit_value_digit_char by done. cbn.
    f_equal. f_equal. lia.
  - assert (0 < n / 10) by (pose proof (Z.div_pos n 10); lia).
    rewrite Nat2Z.inj_succ, Z.pow_succ_r in Hn by lia.
    assert (fuel <> 0%nat).
    { intros ->. cbn in Hn. lia. }
    rewrite IH; [| done |].
    + cbn [read_digits]. rewrite digit_value_digit_char by done. cbn.
      f_equal. f_equal. lia.
    + split; [lia|]. apply Z.div_lt_upper_bound; lia.
Qed.

Lemma read_digits_decimal n :
  0 <= n -> read_digits 10 (decimal n) None = Some n.
Proof.
  intros Hn. unfold decimal. rewrite read_digits_decimal_go; [done|done|].
  split; [done|].
  rewrite Nat2Z.inj_succ, Z2Nat.id by apply Z.log2_nonneg.
  destruct (Z.eq_dec n 0) as [->|]; [done|].
  apply Z.log2_spec. lia.
Qed.

Lemma round_double_small m : 0 <= m < 2 ^ 53 -> round_double m = Some m.
Proof.
  intros [H0 H53]. unfold round_double.
  destruct (Z.leb_spec (Z.log2 m + 1) 53) as [|Hbig]; [done|].
  destruct (Z.eq_dec m 0) as [->|]; [done|].
  assert (Z.log2 m < 53) by (apply Z.log2_lt_pow2; lia). lia.
Qed.

Lemma round_double_big m v :
  2 ^ 53 <= m -> round_double m = Some v -> 2 ^ 53 <= v.
Proof.
  intros Hm. unfold round_double.
  assert (0 < m) by (assert (0 < 2 ^ 53) by done; lia).
  assert (Hlog : 53 <= Z.log2 m) by (apply Z.log2_le_pow2; lia).
  destruct (Z.leb_spec (Z.log2 m + 1) 53) as [|_]; [lia|].
  set (sh := Z.log2 m + 1 - 53).
  set (q := Z.shiftr m sh).
  assert (Hq : 2 ^ 52 <= q).
  { unfold q. rewrite Z.shiftr_div_pow2 by lia.
    apply Z.div_le_lower_bound; [apply Z.pow_pos_nonneg; lia|].
    rewrite <- Z.pow_add_r by lia.
    replace (sh + 52) with (Z.log2 m) by lia.
    apply Z.log2_spec. lia. }
  assert (Hsh : 2 <= 2 ^ sh).
  { change 2 with (2 ^ 1) at 1. apply Z.pow_le_mono_r; lia. }
  destruct (_ || _); destruct (_ <=? _); intros [= <-];
    change (2 ^ 53) with (2 ^ 52 * 2); nia.
Qed.

Lemma shortest_go_small fuel k n x :
  0 <= x < 2 ^ 53 -> shortest_go fuel k n x = x.
Proof.
  intros Hx. revert k. induction fuel as [|fuel IH]; intros k; cbn; [done|].
  destruct (Z.leb_spec n k) as [|Hk]; [done|].
  set (u := 10 ^ (n - k)).
  assert (Hu : 0 < u) by (apply Z.pow_pos_nonneg; lia).
  pose proof (Z.mul_div_le x u Hu) as Hle.
  pose proof (Z.mul_succ_div_gt x u Hu) as Hgt.
  assert (H2 : is_double_of x (x / u * u + u) = false).
  { unfold is_double_of. destruct (0 <? _); [|done]. cbn.
    destruct (round_double (x / u * u + u)) as [v|] eqn:Hr; [|done].
    apply Z.eqb_neq. intros ->.
    destruct (Z.lt_ge_cases (x / u * u + u) (2 ^ 53)) as [Hs|Hb].
    - rewrite round_double_small in Hr by lia. injection Hr as Hr. lia.
    - apply round_double_big in Hr; lia. }
  rewrite H2.
  destruct (is_double_of x (x / u * u)) eqn:H1; [|apply IH].
  unfold is_double_of in H1. apply andb_true_iff in H1 as [Hpos Hr].
  apply Z.ltb_lt in Hpos.
  rewrite round_double_small in Hr by lia. by apply Z.eqb_eq in Hr.
Qed.

Lemma nat_to_string_small x : 0 <= x < 2 ^ 53 -> nat_to_string x = decimal x.
Proof.
  intros Hx. unfold nat_to_string, shortest.
  rewrite shortest_go_small by done.
  destruct (Z.ltb_spec x (10 ^ 21)) as [|Hbig]; [done|].
  assert (2 ^ 53 < 10 ^ 21) by done. lia.
Qed.

Lemma toString_small z : Z.abs z < 2 ^ 53 -> toString (IInt z) = numeral z.
Proof.
  intros Hz. unfold toString, numeral.
  destruct (z <? 0) eqn:Hneg.
  - apply Z.ltb_lt in Hneg. rewrite nat_to_string_small by lia. done.
  - apply Z.ltb_ge in Hneg. rewrite nat_to_string_small by lia. done.
Qed.

Lemma parseInt_numeral z : Z.abs z < 2 ^ 53 -> parseInt (numeral z) = IInt z.
Proof.
  intros Hz. unfold numeral. destruct (z <? 0) eqn:Hneg.
  - apply Z.ltb_lt in Hneg.
    rewrite parseInt_minus_digits
      by (apply decimal_nonempty || apply decimal_all_digits).
    rewrite read_digits_decimal by lia. unfold to_double.
    rewrite round_double_small by lia. f_equal. lia.
  - apply Z.ltb_ge in Hneg.
    rewrite parseInt_digits
      by (apply decimal_nonempty || apply decimal_all_digits).
    rewrite read_digits_decimal by lia. unfold to_double.
    by rewrite round_double_small by lia.
Qed.

Lemma toNumber_numeral z :
  Z.abs z < 2 ^ 53 -> toNumber (VStr (numeral z)) = Returned (PNum (NInt z)).
Proof.
  intros Hz. unfold toNumber.
  rewrite parseInt_numeral, toString_small by done.
  by rewrite String.eqb_refl.
Qed.

Lemma toNumber_range v n :
  toNumber v = Returned (PNum n) -> n = NNaN \/ exists z, n = NInt z.
Proof.
  destruct v as [| | |[z|f| |neg]|str| |]; try discriminate;
    try (unfold toNumber; destruct (cannot_convert _); discriminate).
  - intros [= <-]. eauto.
  - unfold toNumber. destruct (String.eqb _ str) eqn:Heq; [|discriminate].
    apply String.eqb_eq in Heq. intros [= <-].
    destruct (parseInt str) as [|z|neg] eqn:Hparse; cbn; eauto.
    subst str. destruct neg; vm_compute in Hparse; discriminate.
Qed.

(** X1.  Of the strings, [toNumber] takes for an integer of magnitude below
    2^53 its decimal numeral and nothing else: no sign [+], no leading
    zero, no white space, no fraction part, no exponent, no hexadecimal
    form. *)
Theorem toNumber_safe_integer (z : Z) (s : string) :
  Z.abs z < 2 ^ 53 ->
  (toNumber (VStr s) = Returned (PNum (NInt z)) <-> s = numeral z).
Proof.
  intros Hz. split.
  - unfold toNumber. destruct (String.eqb _ s) eqn:Heq; [|done].
    apply String.eqb_eq in Heq. intros [= Hnum].
    destruct (parseInt s) as [|z'|neg]; try discriminate Hnum.
    injection Hnum as ->. rewrite toString_small in Heq by done. done.
  - intros ->. by apply toNumber_numeral.
Qed.

(** X2.  [toNumber] returns NaN on one value only, the string ["NaN"]:
    [parseInt] makes NaN of it, and NaN prints as it. *)
Theorem toNumber_nan (v : jsval) :
  toNumber v = Returned (PNum NNaN) <-> v = VStr "NaN".
Proof.
  split.
  - destruct v as [| | |[z|f| |neg]|str| |]; try discriminate;
      try (unfold toNumber; destruct (cannot_convert _); discriminate).
    unfold toNumber. destruct (String.eqb _ str) eqn:Heq; [|discriminate].
    apply String.eqb_eq in Heq. intros [= Hnum].
    destruct (parseInt str) as [|z|neg]; try discriminate Hnum.
    by rewrite <- Heq.
  - by intros ->.
Qed.

(** X3.  What [toNumber] returns, when it is not [false], is an integral
    Number or NaN, never a Number with a fraction part and never an
    infinity; and it is the argument itself when the argument is a
    Number. *)
Theorem toNumber_integral_or_nan (v : jsval) (n : jsnum) :
  toNumber v = Returned (PNum n) ->
  (n = NNaN \/ exists z, n = NInt z) /\
  forall m, v = VNum m -> m = n.
Proof.
  intros H. split; [by eapply toNumber_range|].
  intros m ->. destruct m as [z|f| |neg]; try discriminate H.
  by injection H as <-.
Qed.

(** ** Further properties: the handler and its callbacks *)

Section FurtherProperties.

Variable Config : config.
Variable decodeAddress : jsval -> bool.

Local Abbreviation step := (step Config decodeAddress).
Local Abbreviation run := (run Config decodeAddress).
Local Abbreviation validate := (validate Config decodeAddress).
Local Abbreviation checks := (checks Config decodeAddress).
Local Abbreviation post_v1_new := (post_v1_new Config decodeAddress).
Local Abbreviation consume_callback := (consume_callback Config).

(** X4.  An amount given as the decimal numeral of an integer of magnitude
    below 2^53 is handled as the Number is: the two requests take the
    process to the same state. *)
Theorem string_amount_as_number
    (s : state) (b : body) (uuid : string) (z : Z) :
  Z.abs z < 2 ^ 53 ->
  step s (Request (set_amount (VStr (numeral z)) b) uuid)
  = step s (Request (set_amount (VNum (NInt z)) b) uuid).
Proof.
  intros Hz. cbn [step]. unfold post_v1_new, validate, build_walletRequest.
  cbn [set_amount body_amount body_callback body_address body_name
       body_userDefined body_confirmations].
  rewrite (toNumber_numeral z Hz). reflexivity.
Qed.

(** *** What is published *)

Lemma step_published s e :
  published (step s e) = published s \/
  exists b uuid a rc q,
    e = Request b uuid /\ validate b = Accept a rc /\ replyQueue s = Some q /\
    published (step s e)
    = published s
      ++ [{| queue := walletQueue;
             work := build_walletRequest b a rc;
             pub_content := wallet_json (build_walletRequest b a rc);
             pub_correlationId := remove_hyphens uuid;
             replyTo := q; expiration := messageExpiration |}].
Proof.
  destruct e as [q|b uuid|c delivery|h']; cbn -[wallet_json].
  - left. unfold startup. by destruct (replyQueue s).
  - unfold post_v1_new.
    destruct (validate b) as [reason|e|a rc] eqn:Hv; [by left|by left|].
    destruct (replyQueue s) as [q|] eqn:Hq; [|by left].
    right. exists b, uuid, a, rc, q. repeat split; (assumption || reflexivity).
  - left. destruct (consumers s !! c) as [k|]; [|done].
    unfold consume_callback.
    destruct delivery as [m|]; [|done].
    destruct (matches k m); [|done].
    destruct (content m) as [v|]; [|done].
    destruct (get_prop v "address") as [a|]; [|done].
    destruct (reply_payload _ _ _ _) as [payload|err]; [|done].
    unfold send_json. by destruct (answered _ _).
  - left. unfold timer_callback.
    by destruct (scopes s !! h') as [[r [|d []]]|].
Qed.

Lemma accepted_work_ok b a rc :
  validate b = Accept a rc ->
  work_ok Config decodeAddress (build_walletRequest b a rc).
Proof.
  unfold validate, work_ok, build_walletRequest.
  cbn [wr_amount wr_address wr_callback wr_confirmations].
  destruct (toNumber (body_amount b)) as [a0|e0] eqn:Hnum; [|discriminate].
  destruct (toNumber (body_confirmations b)) as [c|e0] eqn:Hconf; [|discriminate].
  unfold checks.
  destruct (parsed_truthy a0) eqn:Htruthy; [|discriminate].
  cbn [negb].
  destruct (decodeAddress (or_false (body_address b))) eqn:Hdecode; [|discriminate].
  cbn [negb].
  destruct (check_callback _) as [v|] eqn:Hcb.
  { unfold check_callback in Hcb. intros ->.
    destruct (truthy _); [|discriminate].
    destruct (or_false (body_callback b)); try discriminate.
    destruct (negb (String.eqb _ _)); discriminate. }
  cbn [negb orb].
  destruct (parsed_is_zero _) eqn:Hzero; [discriminate|]. cbn [orb].
  destruct (parsed_ltb _ 0) eqn:Hneg; [discriminate|]. intros Hrc.
  assert (a = a0 /\
          (if negb (is_false c)
           then parsed_ltb c 0 || parsed_gtb c (maximumConfirmations Config) = false
                /\ rc = c
           else rc = PNum (NInt (defaultConfirmations Config)))) as [-> Hrc'].
  { destruct (negb (is_false c)).
    - destruct (_ || _); [discriminate|]. by injection Hrc as <- <-.
    - by injection Hrc as <- <-. }
  clear Hrc.
  split; [|split; [done|split]].
  - destruct a0 as [n|]; [|discriminate].
    destruct (toNumber_range _ _ Hnum) as [->|[z ->]]; [discriminate|].
    exists z. cbn in *. split; [lia|done].
  - unfold check_callback in Hcb.
    destruct (truthy (or_false (body_callback b))) eqn:Ht.
    + destruct (or_false (body_callback b)) as [| | | |str| |]; try discriminate.
      destruct (String.eqb_spec (toLowerCase (prefix 4 str)) "http");
        [|discriminate].
      right. by exists str.
    + left. unfold or_false in *.
      destruct (truthy (body_callback b)) eqn:Hc; [congruence|done].
  - destruct c as [n|]; cbn in Hrc'.
    + destruct Hrc' as [Hin ->]. apply orb_false_iff in Hin as [Hlo Hhi].
      destruct (toNumber_range _ _ Hconf) as [->|[z ->]]; [by right; left|].
      right. right. exists z. cbn in *. split; [lia|done].
    + by left.
Qed.

Lemma or_false_defined v : or_false v <> VUndefined.
Proof.
  unfold or_false. destruct (truthy v) eqn:Ht; [|discriminate].
  intros ->. discriminate Ht.
Qed.

Lemma work_content_ok w :
  work_ok Config decodeAddress w ->
  wr_address w <> VUndefined ->
  content_ok Config decodeAddress (wallet_json w).
Proof.
  intros (Ha & Hd & Hcb & Hc) Hdef. split; [|split; [|split]].
  - destruct Ha as (z & Hz & Hw). exists z. split; [done|].
    by rewrite wallet_json_amount, Hw.
  - exists (wr_address w). split; [done|]. by apply wallet_json_address.
  - destruct Hcb as [Hw|(str & Hw & Hhttp)].
    + left. rewrite wallet_json_callback by (by rewrite Hw). by rewrite Hw.
    + right. exists str. split; [|done].
      rewrite wallet_json_callback by (by rewrite Hw). by rewrite Hw.
  - rewrite wallet_json_confirmations.
    destruct Hc as [->|[->|(z & Hz & ->)]]; [by left|by right; left|].
    right. right. by exists z.
Qed.

(** X5.  Every work item on the work queue has for its amount a strictly
    positive integer, for its address one that the decoder accepts, for its
    callback [false] or a string whose first four characters are [http] in
    lower or upper case, and for its confirmations the default count, an
    integer from 0 to the maximum, or NaN (which is what the string
    ["NaN"] gives).  The content of the message is the text that
    [JSON.stringify] makes of the work item; it has the same amount,
    address and callback, and for its confirmations the default count, an
    integer from 0 to the maximum, or [null], which is how NaN is
    written. *)
Theorem published_work_ok (events : list event) :
  Forall (fun p => work_ok Config decodeAddress (work p) /\
                   pub_content p = wallet_json (work p) /\
                   content_ok Config decodeAddress (pub_content p))
         (published (run initial events)).
Proof.
  apply (run_invariant Config decodeAddress
           (fun s => Forall (fun p => work_ok Config decodeAddress (work p) /\
                                      pub_content p = wallet_json (work p) /\
                                      content_ok Config decodeAddress (pub_content p))
                            (published s)));
    [|by constructor].
  intros s e Hok.
  destruct (step_published s e) as [->|(b & uuid & a & rc & q & _ & Hv & _ & ->)];
    [done|].
  apply Forall_app. split; [done|].
  constructor; [|constructor].
  cbn [work pub_content].
  pose proof (accepted_work_ok b a rc Hv) as Hwork.
  split; [exact Hwork|]. split; [reflexivity|].
  apply work_content_ok; [exact Hwork|]. apply or_false_defined.
Qed.

(** *** The request id *)

Lemma remove_hyphens_clean s : has_hyphen (remove_hyphens s) = false.
Proof.
  induction s as [|c s IH]; [done|]. cbn.
  destruct (Ascii.eqb c "-") eqn:Hc; [done|]. cbn. by rewrite Hc.
Qed.

Lemma remove_hyphens_fixed s : has_hyphen s = false -> remove_hyphens s = s.
Proof.
  induction s as [|c s IH]; [done|]. cbn.
  destruct (Ascii.eqb c "-"); [done|]. cbn. intros H. by rewrite IH.
Qed.

(** X6.  The correlation id of every work item is free of hyphens, and the
    consumer attached with the work item is the one that waits for this
    id. *)
Theorem correlation_ids_clean (events : list event) (i : nat) (p : publication) :
  published (run initial events) !! i = Some p ->
  has_hyphen (pub_correlationId p) = false /\
  remove_hyphens (pub_correlationId p) = pub_correlationId p /\
  exists k, consumers (run initial events) !! i = Some k /\
            requestId k = pub_correlationId p.
Proof.
  intros Hp.
  assert (Hclean : has_hyphen (pub_correlationId p) = false).
  { revert i p Hp.
    apply (run_invariant Config decodeAddress
             (fun s => forall i p, published s !! i = Some p ->
                                   has_hyphen (pub_correlationId p) = false)).
    - intros s e Hok i p.
      destruct (step_published s e)
        as [->|(b & uuid & a & rc & q & _ & _ & _ & ->)];
        [apply Hok|].
      intros [Hold|[_ Hnew]]%lookup_app_Some; [by eapply Hok|].
      apply list_lookup_singleton_Some in Hnew as [_ <-].
      apply remove_hyphens_clean.
    - intros i p. cbn. by rewrite lookup_nil. }
  split; [done|]. split; [by apply remove_hyphens_fixed|].
  destruct (reachable_publications_ok Config decodeAddress events) as [_ Hall].
  destruct (Hall i p Hp) as (_ & _ & _ & k & _ & _ & Hk & Hid & _).
  by exists k.
Qed.


(** *** One invocation and the others *)

Lemma step_scope_other s e h :
  target s e <> Some h ->
  (h < length (scopes s))%nat ->
  scopes (step s e) !! h = scopes s !! h.
Proof.
  intros Htarget Hh. destruct e as [q|b uuid|c delivery|h']; cbn in *.
  - unfold startup. by destruct (replyQueue s).
  - destruct (post_v1_new_scopes Config decodeAddress b uuid s) as (sc0 & _ & ->).
    by rewrite lookup_app_l.
  - destruct (consumers s !! c) as [k|]; [|done]. cbn in Htarget.
    unfold consume_callback.
    destruct delivery as [m|]; [|done].
    destruct (matches k m); [|done].
    destruct (content m) as [v|]; [|done].
    destruct (get_prop v "address") as [a|]; [|done].
    destruct (reply_payload _ _ _ _) as [payload|err];
      [rewrite scopes_send_json|]; cbn;
      rewrite !list_lookup_alter_ne by congruence; done.
  - unfold timer_callback.
    destruct (scopes s !! h') as [[r [|d []]]|]; try done.
    cbn. rewrite !list_lookup_alter_ne by congruence. done.
Qed.

Lemma callback_keeps_channel s e :
  (forall b uuid, e <> Request b uuid) ->
  consumers (step s e) = consumers s /\
  published (step s e) = published s /\
  length (scopes (step s e)) = length (scopes s).
Proof.
  intros Hnot. destruct e as [q|b uuid|c delivery|h']; cbn.
  - unfold startup. by destruct (replyQueue s).
  - by destruct (Hnot b uuid).
  - destruct (consumers s !! c) as [k|]; [|done].
    unfold consume_callback.
    destruct delivery as [m|]; [|done].
    destruct (matches k m); [|done].
    destruct (content m) as [v|]; [|done].
    destruct (get_prop v "address") as [a|]; [|done].
    destruct (reply_payload _ _ _ _) as [payload|err];
      [unfold send_json; destruct (answered _ _)|]; cbn;
      by rewrite !length_alter.
  - unfold timer_callback.
    destruct (scopes s !! h') as [[r [|d []]]|]; try done.
    cbn. by rewrite !length_alter.
Qed.

(** X7.  A delivery changes the response and the timer of no invocation but
    the one of the consumer it is delivered to, and a timer those of no
    invocation but its own; neither attaches a consumer, publishes, or
    starts an invocation. *)
Theorem callbacks_are_local (s : state) (e : event) (h : nat) :
  (forall b uuid, e <> Request b uuid) ->
  target s e <> Some h ->
  scopes (step s e) !! h = scopes s !! h /\
  consumers (step s e) = consumers s /\
  published (step s e) = published s /\
  length (scopes (step s e)) = length (scopes s).
Proof.
  intros Hnot Htarget. split; [|by apply callback_keeps_channel].
  destruct (decide (h < length (scopes s))%nat) as [Hlt|Hge].
  - by apply step_scope_other.
  - destruct (callback_keeps_channel s e Hnot) as (_ & _ & Hlen).
    rewrite !lookup_ge_None_2; [done|lia|lia].
Qed.

(** An invocation without a timer has no consumer. *)
Lemma consumers_have_timers s c k :
  publications_ok s -> consumers s !! c = Some k ->
  exists sc st, scopes s !! owner k = Some sc /\
                cancelTimer sc = Timer requestTimeout st.
Proof.
  intros [Hlen Hall] Hk.
  destruct (published s !! c) as [p|] eqn:Hp.
  - destruct (Hall c p Hp) as (_ & _ & _ & k' & sc & st & Hk' & _ & Hsc & Ht).
    assert (k' = k) as -> by congruence. eauto.
  - apply lookup_ge_None in Hp. apply lookup_lt_Some in Hk. lia.
Qed.

Lemma step_closed s e h sc :
  publications_ok s ->
  scopes s !! h = Some sc -> cancelTimer sc = NoTimer ->
  scopes (step s e) !! h = Some sc.
Proof.
  intros Hok Hsc Hno.
  destruct (decide (target s e = Some h)) as [Htarget|Htarget].
  - destruct e as [q|b uuid|c delivery|h']; cbn in Htarget; try discriminate.
    + destruct (consumers s !! c) as [k|] eqn:Hk; [|discriminate].
      injection Htarget as <-.
      destruct (consumers_have_timers s c k Hok Hk) as (sc' & st & Hsc' & Ht).
      congruence.
    + injection Htarget as ->. cbn. unfold timer_callback.
      rewrite Hsc. destruct sc as [r t]. cbn in Hno. by subst t.
  - rewrite step_scope_other; [done|done|]. by eapply lookup_lt_Some.
Qed.

(** X8.  An invocation that ends without a timer (the request was
    rejected, [toNumber] or the check of the callback raised, or the
    channel was not there) is closed for good: no delivery and no timer
    changes its response afterwards. *)
Theorem closed_invocation_is_final
    (events more : list event) (h : nat) (sc : scope) :
  scopes (run initial events) !! h = Some sc ->
  cancelTimer sc = NoTimer ->
  scopes (run initial (events ++ more)) !! h = Some sc.
Proof.
  intros Hsc Hno. rewrite run_app.
  pose proof (reachable_publications_ok Config decodeAddress events) as Hok.
  generalize dependent (run initial events). intros s Hsc Hok.
  apply (run_invariant Config decodeAddress
           (fun s' => publications_ok s' /\ scopes s' !! h = Some sc));
    [|done].
  intros s' e [Hok' Hsc']. split.
  - by apply step_publications_ok.
  - by apply step_closed.
Qed.

(** X9.  When the delay of a timer that still waits runs out, the response
    of its invocation, which is empty until then, is answered with status
    500, once: the timeout is logged, nothing is acknowledged, attached or
    published, and the timer that has run does not run again. *)
Theorem timeout_answers_once
    (events : list event) (h : nat) (sc : scope) (d : Z) :
  scopes (run initial events) !! h = Some sc ->
  cancelTimer sc = Timer d Armed ->
  scopes (step (run initial events) (Elapsed h)) !! h
  = Some {| res := [Status 500]; cancelTimer := Timer d Fired |} /\
  logged (step (run initial events) (Elapsed h))
  = logged (run initial events) ++ [HTTPError h "RPC request timed out"] /\
  acked (step (run initial events) (Elapsed h)) = acked (run initial events) /\
  uncaught (step (run initial events) (Elapsed h))
  = uncaught (run initial events) /\
  step (step (run initial events) (Elapsed h)) (Elapsed h)
  = step (run initial events) (Elapsed h).
Proof.
  intros Hsc Ht.
  pose proof (reachable_scopes_ok Config decodeAddress events) as Hok.
  rewrite Forall_lookup in Hok. destruct (Hok _ _ Hsc) as [_ Hempty].
  specialize (Hempty d Ht).
  generalize dependent (run initial events). intros s Hsc _.
  destruct sc as [r t]. cbn in Ht, Hempty. subst r t.
  assert (Hscope : scopes (step s (Elapsed h)) !! h
                   = Some {| res := [Status 500]; cancelTimer := Timer d Fired |}).
  { cbn. unfold timer_callback. rewrite Hsc. cbn.
    by rewrite !list_lookup_alter_eq, Hsc. }
  split; [exact Hscope|].
  split; [|split; [|split]].
  - cbn. unfold timer_callback. by rewrite Hsc.
  - cbn. unfold timer_callback. by rewrite Hsc.
  - cbn. unfold timer_callback. by rewrite Hsc.
  - cbn [step] in *. unfold timer_callback at 1. by rewrite Hscope.
Qed.

(** *** Acknowledgements *)

Lemma step_acked s e :
  acked (step s e) = acked s \/
  exists c k m v a,
    e = Delivery c (Some m) /\ consumers s !! c = Some k /\
    matches k m = true /\ content m = Some v /\
    get_prop v "address" = Some a /\
    acked (step s e) = acked s ++ [m].
Proof.
  destruct e as [q|b uuid|c delivery|h']; cbn.
  - left. unfold startup. by destruct (replyQueue s).
  - left. unfold post_v1_new.
    by destruct (validate b) as [reason|e|rc]; [| |destruct (replyQueue s)].
  - destruct (consumers s !! c) as [k|] eqn:Hk; [|by left].
    unfold consume_callback.
    destruct delivery as [m|]; [|by left].
    destruct (matches k m) eqn:Hm; [|by left].
    destruct (content m) as [v|] eqn:Hv; [|by left].
    destruct (get_prop v "address") as [a|] eqn:Ha; [|by left].
    right. exists c, k, m, v, a. repeat split; try done.
    destruct (reply_payload _ _ _ _) as [payload|err]; [|done].
    unfold send_json. by destruct (answered _ _).
  - left. unfold timer_callback.
    by destruct (scopes s !! h') as [[r [|d []]]|].
Qed.

(** X10.  A message is acknowledged only by a consumer of the request it
    answers: every message acknowledged has the correlation id of a
    consumer that is attached, and content that is JSON and not [null]. *)
Theorem acknowledged_messages_matched (events : list event) :
  Forall (fun m => exists k v a,
                     k ∈ consumers (run initial events) /\
                     matches k m = true /\ content m = Some v /\
                     get_prop v "address" = Some a)
         (acked (run initial events)).
Proof.
  apply (run_invariant Config decodeAddress
           (fun s => Forall (fun m => exists k v a,
                                        k ∈ consumers s /\
                                        matches k m = true /\
                                        content m = Some v /\
                                        get_prop v "address" = Some a)
                            (acked s)));
    [|by constructor].
  intros s e Hok.
  destruct (step_attaches Config decodeAddress s e) as (lk & _ & Hcons & _).
  assert (Hold : Forall (fun m => exists k v a,
                           k ∈ consumers (step s e) /\ matches k m = true /\
                           content m = Some v /\ get_prop v "address" = Some a)
                        (acked s)).
  { eapply Forall_impl; [|exact Hok].
    intros m (k & v & a & Hk & Hrest). exists k, v, a. split; [|done].
    rewrite Hcons. apply elem_of_app. by left. }
  destruct (step_acked s e)
    as [->|(c & k & m & v & a & _ & Hk & Hm & Hv & Ha & ->)]; [done|].
  apply Forall_app. split; [done|].
  constructor; [|constructor]. exists k, v, a. split; [|done].
  rewrite Hcons. apply elem_of_app. left.
  by eapply list_elem_of_lookup_2.
Qed.

(** *** Before the channel is there *)

Lemma step_before_startup s e :
  no_startup e = true ->
  replyQueue s = None /\ consumers s = [] /\ published s = [] /\
  acked s = [] /\ nacked s = [] /\
  Forall (fun sc => cancelTimer sc = NoTimer) (scopes s) ->
  replyQueue (step s e) = None /\ consumers (step s e) = [] /\
  published (step s e) = [] /\ acked (step s e) = [] /\
  nacked (step s e) = [] /\
  Forall (fun sc => cancelTimer sc = NoTimer) (scopes (step s e)).
Proof.
  intros He (Hq & Hc & Hp & Ha & Hn & Ht).
  destruct e as [q|b uuid|c delivery|h']; [discriminate| | |]; cbn.
  - unfold post_v1_new. rewrite Hq.
    destruct (validate b) as [reason|e|rc]; cbn; rewrite ?alter_last;
      repeat split; try done; apply Forall_app; split; try done;
      by repeat constructor.
  - by rewrite Hc, lookup_nil.
  - unfold timer_callback.
    destruct (scopes s !! h') as [[r [|d []]]|] eqn:Hh; try done.
    rewrite Forall_lookup in Ht. by specialize (Ht _ _ Hh).
Qed.

(** X11.  Until start-up has made the channel and the reply queue, nothing
    is attached, published, acknowledged or timed, whatever requests,
    deliveries and timers there are. *)
Theorem nothing_before_startup (events : list event) :
  forallb no_startup events = true ->
  replyQueue (run initial events) = None /\
  consumers (run initial events) = [] /\
  published (run initial events) = [] /\
  acked (run initial events) = [] /\
  nacked (run initial events) = [] /\
  Forall (fun sc => cancelTimer sc = NoTimer) (scopes (run initial events)).
Proof.
  assert (Hgen : forall s,
    forallb no_startup events = true ->
    replyQueue s = None /\ consumers s = [] /\ published s = [] /\
    acked s = [] /\ nacked s = [] /\
    Forall (fun sc => cancelTimer sc = NoTimer) (scopes s) ->
    replyQueue (run s events) = None /\ consumers (run s events) = [] /\
    published (run s events) = [] /\ acked (run s events) = [] /\
    nacked (run s events) = [] /\
    Forall (fun sc => cancelTimer sc = NoTimer) (scopes (run s events))).
  { induction events as [|e rest IH]; intros s Hall Hs; [exact Hs|].
    cbn in Hall. apply andb_true_iff in Hall as [He Hrest].
    change (run s (e :: rest)) with (run (step s e) rest).
    apply IH; [done|]. by apply step_before_startup. }
  intros Hall. apply Hgen; [done|]. by repeat split.
Qed.

(** X12.  A number of confirmations from 0 to the maximum, both included,
    is the one published for a request that passes the other checks. *)
Theorem confirmations_in_range_published
    (s : state) (b : body) (uuid q : string) (a rc : parsed) (z : Z) :
  replyQueue s = Some q ->
  validate (set_confirmations VUndefined b) = Accept a rc ->
  toNumber (body_confirmations b) = Returned (PNum (NInt z)) ->
  0 <= z <= maximumConfirmations Config ->
  exists p,
    published (step s (Request b uuid)) = published s ++ [p] /\
    wr_confirmations (work p) = PNum (NInt z).
Proof.
  intros Hq Hv Hn Hz.
  assert (Hacc : validate b = Accept a (PNum (NInt z))).
  { rewrite <- (set_confirmations_same b).
    rewrite (validate_confirmations Config decodeAddress b _ _ Hn), Hv. cbn.
    destruct (Z.ltb_spec z 0) as [|_]; [lia|].
    destruct (Z.ltb_spec (maximumConfirmations Config) z) as [|_]; [lia|done]. }
  destruct (post_v1_new_accepted Config decodeAddress b uuid s _ _ q Hacc Hq)
    as (k & p & _ & Hp & _ & _ & _ & _ & _ & _ & Hw & _).
  exists p. split; [exact Hp|]. by rewrite Hw.
Qed.

End FurtherProperties.

(** ** Further properties: the connection string *)

Lemma string_app_empty s : s +:+ "" = s.
Proof.
  induction s as [|c s IH]; [done|].
  change (String c (s +:+ "") = String c s). by rewrite IH.
Qed.

Lemma string_app_assoc s t u : (s +:+ t) +:+ u = s +:+ (t +:+ u).
Proof.
  induction s as [|c s IH]; [done|].
  change (String c ((s +:+ t) +:+ u) = String c (s +:+ (t +:+ u))).
  by rewrite IH.
Qed.

Lemma length_zero_empty s : Nat.eqb (String.length s) 0 = String.eqb s "".
Proof. by destruct s. Qed.

(** X13.  The address of the broker is [amqp://] and the host, which is
    [localhost] when the variable of the host is not set or is empty.  The
    user name and the password stand before the host when both are set and
    not empty; one without the other is dropped without a word. *)
Theorem connectionString_cases (host username password : option string) :
  connectionString host username password
  = match username, password with
    | Some u, Some p =>
        if String.eqb u "" || String.eqb p ""
        then "amqp://" +:+ env_or host "localhost"
        else "amqp://" +:+ u +:+ ":" +:+ p +:+ "@" +:+ env_or host "localhost"
    | _, _ => "amqp://" +:+ env_or host "localhost"
    end.
Proof.
  unfold connectionString, buildConnectionString.
  rewrite !length_zero_empty.
  generalize (env_or host "localhost"). intros h.
  destruct username as [u|], password as [p|]; cbn [env_or].
  - destruct (String.eqb_spec u "") as [->|Hu]; cbn [negb andb orb].
    + rewrite String.eqb_refl. cbn. by rewrite string_app_empty.
    + destruct (String.eqb_spec p "") as [->|Hp]; cbn [negb andb orb].
      * rewrite String.eqb_refl. destruct (String.eqb u ""); cbn;
          by rewrite string_app_empty.
      * apply String.eqb_neq in Hu, Hp. rewrite Hu, Hp. cbn [negb andb].
        cbn [app join foldr].
        by rewrite string_app_empty, !string_app_assoc.
  - rewrite String.eqb_refl.
    destruct (String.eqb (if String.eqb u "" then "" else u) ""); cbn;
      by rewrite string_app_empty.
  - rewrite String.eqb_refl. cbn. by rewrite string_app_empty.
  - rewrite String.eqb_refl. cbn. by rewrite string_app_empty.
Qed.

(** ** Further properties: the database backend *)

Lemma or_else_again v d : or_else (or_else v d) d = or_else v d.
Proof.
  unfold or_else. destruct (truthy v) eqn:Hv; [by rewrite Hv|].
  by destruct (truthy d).
Qed.

Lemma or_else_truthy v d : truthy d = true -> truthy (or_else v d) = true.
Proof. unfold or_else. by destruct (truthy v) eqn:Hv. Qed.

Lemma or_else_default v d :
  truthy (or_else v d) = true \/ or_else v d = d.
Proof. unfold or_else. destruct (truthy v) eqn:Hv; eauto. Qed.

(** X14.  A backend handed to the constructor as its options gives the
    same backend again: every value that the constructor has settled,
    default or not, is kept. *)
Theorem DatabaseBackend_again (opts : jsval) :
  DatabaseBackend (backend_object (DatabaseBackend opts)) = DatabaseBackend opts.
Proof.
  unfold DatabaseBackend at 1. unfold backend_object.
  cbn [or_empty truthy get_prop default lookup_field].
  cbn -[or_else DatabaseBackend].
  unfold DatabaseBackend. cbn -[or_else].
  by rewrite !or_else_again.
Qed.

(** X15.  Whatever the options, and without any, each property of the
    backend is the option of its name when that is truthy, and otherwise
    its default: ['127.0.0.1'] for the host, 3306 for the port, the empty
    string for the user name, the password and the database, [false] for
    the socket path, 10 for the connection limit.  So the host, the port
    and the connection limit are never falsy (a port 0 or a limit 0 gives
    way to 3306 and 10), a backend made without options has the seven
    defaults, and the pool is created with the very values of the
    backend. *)
Theorem DatabaseBackend_settled (opts : jsval) :
  let d := DatabaseBackend opts in
  let pick := fun key dflt =>
    if truthy (given opts key) then given opts key else dflt in
  db_host d = pick "host" (VStr "127.0.0.1") /\
  db_port d = pick "port" (VNum (NInt 3306)) /\
  db_username d = pick "username" (VStr "") /\
  db_password d = pick "password" (VStr "") /\
  db_database d = pick "database" (VStr "") /\
  db_socketPath d = pick "socketPath" (VBool false) /\
  db_connectionLimit d = pick "connectionLimit" (VNum (NInt 10)) /\
  truthy (db_host d) = true /\ truthy (db_port d) = true /\
  truthy (db_connectionLimit d) = true /\
  (truthy (db_username d) = true \/ db_username d = VStr "") /\
  (truthy (db_password d) = true \/ db_password d = VStr "") /\
  (truthy (db_database d) = true \/ db_database d = VStr "") /\
  (truthy (db_socketPath d) = true \/ db_socketPath d = VBool false) /\
  db_pool d = {| pool_connectionLimit := db_connectionLimit d;
                 pool_host := db_host d; pool_port := db_port d;
                 pool_user := db_username d;
                 pool_password := db_password d;
                 pool_database := db_database d;
                 pool_socketPath := db_socketPath d |} /\
  (truthy opts = false ->
   d = {| db_host := VStr "127.0.0.1"; db_port := VNum (NInt 3306);
          db_username := VStr ""; db_password := VStr "";
          db_database := VStr ""; db_socketPath := VBool false;
          db_connectionLimit := VNum (NInt 10);
          db_pool := {| pool_connectionLimit := VNum (NInt 10);
                        pool_host := VStr "127.0.0.1";
                        pool_port := VNum (NInt 3306);
                        pool_user := VStr ""; pool_password := VStr "";
                        pool_database := VStr "";
                        pool_socketPath := VBool false |} |}).
Proof.
  assert (Hread : forall key,
            default VUndefined (get_prop (or_empty opts) key) = given opts key).
  { intros key. unfold or_empty, given.
    destruct opts as [| |[]|n|str|fields|items]; cbn [truthy];
      try reflexivity.
    - by destruct (num_truthy n).
    - by destruct (negb (String.eqb str "")). }
  cbn zeta. unfold DatabaseBackend. cbn zeta.
  cbn [db_host db_port db_username db_password db_database db_socketPath
       db_connectionLimit db_pool].
  rewrite !Hread. unfold or_else.
  repeat match goal with |- _ /\ _ => split end; try reflexivity.
  - by destruct (truthy (given opts "host")) eqn:H.
  - by destruct (truthy (given opts "port")) eqn:H.
  - by destruct (truthy (given opts "connectionLimit")) eqn:H.
  - destruct (truthy (given opts "username")) eqn:H; eauto.
  - destruct (truthy (given opts "password")) eqn:H; eauto.
  - destruct (truthy (given opts "database")) eqn:H; eauto.
  - destruct (truthy (given opts "socketPath")) eqn:H; eauto.
  - intros Hfalsy.
    assert (Hnone : forall key, given opts key = VUndefined).
    { intros key. by destruct opts. }
    by rewrite !Hnone.
Qed.

(** ** Further properties: the application *)

(** X16.  Of all the requests that come to the application, only a [POST]
    on [/v1/new] whose body is not refused as bad JSON gets to the handler.
    Every other one attaches, publishes and acknowledges nothing, sets no
    timer, and is answered with one status: 400 for bad JSON, by the
    application and without its headers; 400 for a path with a
    percent-escape that cannot be decoded, whatever the method, by the
    final handler of Express and without a line in the log; 200 for
    [OPTIONS] on any other path; 404 for the rest, with the headers of the
    application as for the 200. *)
Theorem only_the_route_reaches_the_channel
    (Config : config) (decodeAddress : jsval -> bool) (corsHeader : string)
    (r : http_request) (uuid : string) (s : state) :
  reaches_handler r = false ->
  consumers (serve Config decodeAddress corsHeader r uuid s).2 = consumers s /\
  published (serve Config decodeAddress corsHeader r uuid s).2 = published s /\
  acked (serve Config decodeAddress corsHeader r uuid s).2 = acked s /\
  scopes (serve Config decodeAddress corsHeader r uuid s).2
  = scopes s ++ [{| res := [Status (status_outside r)]; cancelTimer := NoTimer |}] /\
  logged (serve Config decodeAddress corsHeader r uuid s).2
  = (if negb (bad_json r) && negb (bad_path r)
        && match req_method r with OPTIONS => false | _ => true end
     then logged s ++ [HTTPError (length (scopes s)) not_found]
     else logged s) /\
  (if bad_json r
   then (serve Config decodeAddress corsHeader r uuid s).1 = []
   else bad_path r = true \/
        (serve Config decodeAddress corsHeader r uuid s).1
        = app_headers corsHeader).
Proof.
  destruct r as [m [|[]] [b|[] b]]; destruct m; try discriminate; intros _;
    cbn; rewrite ?alter_last; repeat split; eauto.
Qed.

(** ** The further properties on the sample deployment *)

Lemma toNumber_safe_integer_witness :
  toNumber (VStr "1000000") = Returned (PNum (NInt 1000000))
  <-> "1000000" = numeral 1000000.
Proof.
  apply (toNumber_safe_integer 1000000 "1000000").
  vm_compute. reflexivity.
Defined.

Lemma toNumber_integral_or_nan_witness :
  (NInt (-7) = NNaN \/ exists z, NInt (-7) = NInt z) /\
  forall m, VStr "-7" = VNum m -> m = NInt (-7).
Proof.
  apply (toNumber_integral_or_nan (VStr "-7") (NInt (-7))).
  vm_compute. reflexivity.
Defined.

Lemma string_amount_as_number_witness :
  step sample_config sample_decoder (sample_run [Startup sample_queue])
    (Request (set_amount (VStr (numeral 1000000)) sample_body) sample_uuid)
  = step sample_config sample_decoder (sample_run [Startup sample_queue])
      (Request (set_amount (VNum (NInt 1000000)) sample_body) sample_uuid).
Proof.
  apply (string_amount_as_number sample_config sample_decoder).
  vm_compute. reflexivity.
Defined.

Lemma correlation_ids_clean_witness :
  has_hyphen (pub_correlationId sample_publication) = false /\
  remove_hyphens (pub_correlationId sample_publication)
  = pub_correlationId sample_publication /\
  exists k, consumers sample_started !! 0%nat = Some k /\
            requestId k = pub_correlationId sample_publication.
Proof.
  apply (correlation_ids_clean sample_config sample_decoder
           [Startup sample_queue; Request sample_body sample_uuid] 0).
  vm_compute. reflexivity.
Defined.

Lemma callbacks_are_local_witness :
  scopes (step sample_config sample_decoder
            (sample_run [Startup sample_queue; Request sample_body sample_uuid;
                         Request sample_body other_uuid])
            (Delivery 0 (Some (reply_for sample_uuid (Some sample_reply)))))
    !! 1%nat
  = Some sample_waiting.
Proof.
  destruct (callbacks_are_local sample_config sample_decoder
              (sample_run [Startup sample_queue; Request sample_body sample_uuid;
                           Request sample_body other_uuid])
              (Delivery 0 (Some (reply_for sample_uuid (Some sample_reply))))
              1) as [Hscope _].
  - intros b uuid. discriminate.
  - vm_compute. discriminate.
  - rewrite Hscope. vm_compute. reflexivity.
Defined.

Lemma closed_invocation_is_final_witness :
  scopes (sample_run
            ([Startup sample_queue;
              Request (set_amount (VNum (NInt 0)) sample_body) sample_uuid]
             ++ [Delivery 0 (Some (reply_for sample_uuid (Some sample_reply)));
                 Elapsed 0])) !! 0%nat
  = Some {| res := [Status 400]; cancelTimer := NoTimer |}.
Proof.
  apply (closed_invocation_is_final sample_config sample_decoder).
  - vm_compute. reflexivity.
  - reflexivity.
Defined.

Lemma timeout_answers_once_witness :
  scopes (step sample_config sample_decoder sample_started (Elapsed 0)) !! 0%nat
  = Some {| res := [Status 500]; cancelTimer := Timer requestTimeout Fired |}.
Proof.
  destruct (timeout_answers_once sample_config sample_decoder
              [Startup sample_queue; Request sample_body sample_uuid]
              0 sample_waiting requestTimeout) as [Hscope _].
  - vm_compute. reflexivity.
  - reflexivity.
  - exact Hscope.
Defined.

Lemma nothing_before_startup_witness :
  published (sample_run [Request sample_body sample_uuid; Elapsed 0]) = [].
Proof.
  destruct (nothing_before_startup sample_config sample_decoder
              [Request sample_body sample_uuid; Elapsed 0])
    as (_ & _ & Hpublished & _).
  - vm_compute. reflexivity.
  - exact Hpublished.
Defined.

Lemma confirmations_in_range_published_witness :
  exists p,
    published (step sample_config sample_decoder
                 (sample_run [Startup sample_queue])
                 (Request (set_confirmations (VNum (NInt 60)) sample_body)
                          sample_uuid))
    = published (sample_run [Startup sample_queue]) ++ [p] /\
    wr_confirmations (work p) = PNum (NInt 60).
Proof.
  apply (confirmations_in_range_published sample_config sample_decoder
           (sample_run [Startup sample_queue])
           (set_confirmations (VNum (NInt 60)) sample_body)
           sample_uuid sample_queue
           (PNum (NInt 1000000))
           (PNum (NInt (defaultConfirmations sample_config))) 60).
  - vm_compute. reflexivity.
  - vm_compute. reflexivity.
  - vm_compute. reflexivity.
  - vm_compute. split; discriminate.
Defined.

Lemma only_the_route_reaches_the_channel_witness :
  scopes (serve sample_config sample_decoder "*"
            {| req_method := GET; req_path := V1New;
               req_parsed := ParsedBody sample_body |}
            sample_uuid sample_started).2
  = scopes sample_started ++ [{| res := [Status 404]; cancelTimer := NoTimer |}] /\
  scopes (serve sample_config sample_decoder "*"
            {| req_method := OPTIONS; req_path := OtherPath false;
               req_parsed := ParsedBody sample_body |}
            sample_uuid sample_started).2
  = scopes sample_started ++ [{| res := [Status 400]; cancelTimer := NoTimer |}].
Proof.
  split.
  - destruct (only_the_route_reaches_the_channel sample_config sample_decoder "*"
                {| req_method := GET; req_path := V1New;
                   req_parsed := ParsedBody sample_body |}
                sample_uuid sample_started) as (_ & _ & _ & Hscopes & _).
    + vm_compute. reflexivity.
    + exact Hscopes.
  - destruct (only_the_route_reaches_the_channel sample_config sample_decoder "*"
                {| req_method := OPTIONS; req_path := OtherPath false;
                   req_parsed := ParsedBody sample_body |}
                sample_uuid sample_started) as (_ & _ & _ & Hscopes & _).
    + vm_compute. reflexivity.
    + exact Hscopes.
Defined.
